(** * Media platform analytics: rate limiting, view aggregation, cache-aside

    A shallow embedding of [src/app/main.py]: the sliding-window rate limiter
    ([rate_limit]), the view logger ([log_view]) and the analytics reader
    ([get_analytics]) together with the process-wide stores they mutate.

    Python values are modelled as follows.
    - [int] is [Z]; [len] is [Z.of_nat (length _)].
    - [datetime] is a record of its calendar fields; subtraction and the
      [timedelta] normalisation follow the standard library.
    - [dict] used as a finite map ([media_db], [views_db], [rate_limit_store],
      the Redis key space) is a [gmap]; a [defaultdict] read inserts the
      default under the missing key, which is written out where it happens.
    - a [dict] whose insertion order is observable through [str] is an
      association list with unique keys ([views_per_day] and the response).
    - a raised [HTTPException] is the [Raise] outcome of a state-and-error
      monad; the state keeps what was mutated before the [raise]. *)

From Stdlib Require Import ZArith Lia Ascii String Decimal DecimalString DecimalZ DecimalN DecimalPos.
From stdpp Require Import gmap strings list fin_maps.

Local Open Scope Z_scope.

(** ** The standard library's [datetime] and [timedelta] *)

Module Datetime.

Record datetime := mk_datetime {
  year : Z; month : Z; day : Z;
  hour : Z; minute : Z; second : Z; microsecond : Z
}.

Record date := mk_date { d_year : Z; d_month : Z; d_day : Z }.

(** A [timedelta] is kept normalised: [0 <= seconds < 86400] and
    [0 <= microseconds < 1000000]; only [days] carries the sign. *)
Record timedelta := mk_timedelta { days : Z; seconds : Z; microseconds : Z }.

Definition _is_leap (y : Z) : bool :=
  (y mod 4 =? 0) && (negb (y mod 100 =? 0) || (y mod 400 =? 0)).

Definition _days_before_year (yr : Z) : Z :=
  let y := yr - 1 in y * 365 + y / 4 - y / 100 + y / 400.

Definition _DAYS_BEFORE_MONTH : list Z :=
  [-1; 0; 31; 59; 90; 120; 151; 181; 212; 243; 273; 304; 334].

Definition _DAYS_IN_MONTH : list Z :=
  [-1; 31; 28; 31; 30; 31; 30; 31; 31; 30; 31; 30; 31].

Definition _days_before_month (y m : Z) : Z :=
  nth (Z.to_nat m) _DAYS_BEFORE_MONTH 0
  + (if (2 <? m) && _is_leap y then 1 else 0).

Definition _days_in_month (y m : Z) : Z :=
  if (m =? 2) && _is_leap y then 29 else nth (Z.to_nat m) _DAYS_IN_MONTH 0.

Definition _ymd2ord (y m d : Z) : Z :=
  _days_before_year y + _days_before_month y m + d.

Definition toordinal (t : datetime) : Z :=
  _ymd2ord (year t) (month t) (day t).

(** [timedelta(days, seconds, microseconds)] with integer arguments. *)
Definition new_timedelta (d s us : Z) : timedelta :=
  let total := (d * 86400 + s) * 1000000 + us in
  {| days := total / 86400000000;
     seconds := (total / 1000000) mod 86400;
     microseconds := total mod 1000000 |}.

(** [self - other] on two naive datetimes. *)
Definition sub (self other : datetime) : timedelta :=
  let days1 := toordinal self in
  let days2 := toordinal other in
  let secs1 := second self + minute self * 60 + hour self * 3600 in
  let secs2 := second other + minute other * 60 + hour other * 3600 in
  new_timedelta (days1 - days2) (secs1 - secs2)
                (microsecond self - microsecond other).

(** The elapsed time a [timedelta] stands for, in microseconds
    ([total_seconds()] scaled by [10**6]). *)
Definition total_microseconds (td : timedelta) : Z :=
  (days td * 86400 + seconds td) * 1000000 + microseconds td.

Definition to_date (t : datetime) : date :=
  {| d_year := year t; d_month := month t; d_day := day t |}.

(** The field ranges every constructed [datetime] satisfies
    ([MINYEAR = 1], [MAXYEAR = 9999]). *)
Definition valid_date (d : date) : Prop :=
  1 <= d_year d <= 9999 /\ 1 <= d_month d <= 12
  /\ 1 <= d_day d <= _days_in_month (d_year d) (d_month d).

Definition valid (t : datetime) : Prop :=
  valid_date (to_date t)
  /\ 0 <= hour t < 24 /\ 0 <= minute t < 60 /\ 0 <= second t < 60
  /\ 0 <= microsecond t < 1000000.

#[global] Instance datetime_eq_dec : EqDecision datetime.
Proof. solve_decision. Defined.

#[global] Instance date_eq_dec : EqDecision date.
Proof. solve_decision. Defined.

End Datetime.

Import Datetime.

(** ** Process state and the handler monad *)

Definition len {A : Type} (l : list A) : Z := Z.of_nat (length l).

Record HTTPException := mk_HTTPException { status_code : Z; detail : string }.

Inductive outcome (A : Type) : Type :=
| Return (a : A)
| Raise (e : HTTPException).
Arguments Return {A} a.
Arguments Raise {A} e.

Record Media := mk_Media { title : string; type_ : string; file_url : string }.

(** One element of a [views_db] list: [{"ip": ip, "time": now}]. *)
Record view := mk_view { ip : string; time : datetime }.

(** Modelled from the spec: the Redis server behind [redis_client] is not
    part of the repository. Its key space is a finite map from key to the
    stored text and the instant it expires (section 4.4, CacheLayer); the
    server clock is an integer count of milliseconds. The three
    operations are those of a server that answers; a request during which
    the server does not answer is modelled apart ([log_view_on]). *)
Module Redis.

Record entry := mk_entry { value : string; expires_at : Z }.

(** [get]: an entry whose [expires_at <= now] is treated as absent. *)
Definition get (key : string) (now : Z) (db : gmap string entry) : option string :=
  match db !! key with
  | Some e => if decide (expires_at e <= now) then None else Some (value e)
  | None => None
  end.

(** [setex key ttl value]: overwrite with [expires_at = now + ttl]. *)
Definition setex (key : string) (ttl_seconds : Z) (v : string) (now : Z)
    (db : gmap string entry) : gmap string entry :=
  <[key := {| value := v; expires_at := now + ttl_seconds * 1000 |}]> db.

(** [delete]: remove the entry if present, otherwise do nothing. *)
Definition delete (key : string) (db : gmap string entry) : gmap string entry :=
  base.delete key db.

End Redis.

Record state := mk_state {
  media_db : gmap Z Media;
  views_db : gmap Z (list view);
  rate_limit_store : gmap string (list datetime);
  redis_client : gmap string Redis.entry
}.

Definition with_views_db (f : gmap Z (list view) -> gmap Z (list view)) (st : state) : state :=
  {| media_db := media_db st; views_db := f (views_db st);
     rate_limit_store := rate_limit_store st; redis_client := redis_client st |}.

Definition with_rate_limit_store
    (f : gmap string (list datetime) -> gmap string (list datetime)) (st : state) : state :=
  {| media_db := media_db st; views_db := views_db st;
     rate_limit_store := f (rate_limit_store st); redis_client := redis_client st |}.

Definition with_redis_client
    (f : gmap string Redis.entry -> gmap string Redis.entry) (st : state) : state :=
  {| media_db := media_db st; views_db := views_db st;
     rate_limit_store := rate_limit_store st; redis_client := f (redis_client st) |}.

(** A handler threads the state and either returns or raises; the state
    returned next to [Raise] holds the mutations done before the [raise]. *)
Definition M (A : Type) : Type := state -> outcome A * state.

#[global] Instance M_ret : MRet M := fun A a st => (Return a, st).

#[global] Instance M_bind : MBind M := fun A B f m st =>
  match m st with
  | (Return a, st') => f a st'
  | (Raise e, st') => (Raise e, st')
  end.

Definition raise {A : Type} (e : HTTPException) : M A := fun st => (Raise e, st).
Definition gets {A : Type} (f : state -> A) : M A := fun st => (Return (f st), st).
Definition modify (f : state -> state) : M unit := fun st => (Return tt, f st).

(** The logical content of a [defaultdict(list)] at a key. *)
Definition window (store : gmap string (list datetime)) (ip : string) : list datetime :=
  default [] (store !! ip).

Definition events (db : gmap Z (list view)) (media_id : Z) : list view :=
  default [] (db !! media_id).

(** ** The rate limiter *)

Definition RATE_LIMIT : Z := 5.
Definition WINDOW : Z := 60.

(** [rate_limit_store[ip]] as an expression: a [defaultdict] read, which
    stores the empty list under a missing key. *)
Definition rate_limit_store_getitem (ip : string) : M (list datetime) :=
  fun st =>
    match rate_limit_store st !! ip with
    | Some l => (Return l, st)
    | None => (Return [], with_rate_limit_store (insert ip []) st)
    end.

Definition rate_limit_store_setitem (ip : string) (l : list datetime) : M unit :=
  modify (with_rate_limit_store (insert ip l)).

(** The comprehension's test [(now - ts).seconds < WINDOW]. *)
Definition recent (now ts : datetime) : Prop :=
  seconds (Datetime.sub now ts) < WINDOW.

#[global] Instance recent_dec now ts : Decision (recent now ts).
Proof. unfold recent. apply _. Defined.

Definition too_many_requests : HTTPException :=
  {| status_code := 429; detail := "Too many requests" |}.

Definition rate_limit (ip : string) (now : datetime) : M unit :=
  timestamps ← rate_limit_store_getitem ip;
  rate_limit_store_setitem ip (filter (recent now) timestamps);;
  kept ← rate_limit_store_getitem ip;
  if decide (RATE_LIMIT <= len kept) then raise too_many_requests
  else rate_limit_store_setitem ip (kept ++ [now]).

(** ** Python values, [str] and [eval] *)

(** An insertion-ordered [dict] with [str] keys: an association list
    whose keys are pairwise distinct. *)
Module Dict.
Section ops.
Context {V : Type}.

(** [d.get(k)] *)
Fixpoint get (k : string) (d : list (string * V)) : option V :=
  match d with
  | [] => None
  | (k', v) :: d' => if decide (k = k') then Some v else get k d'
  end.

(** [d[k] = v]: overwrite in place, or append a new key at the end. *)
Fixpoint setitem (k : string) (v : V) (d : list (string * V)) : list (string * V) :=
  match d with
  | [] => [(k, v)]
  | (k', v') :: d' =>
      if decide (k = k') then (k', v) :: d' else (k', v') :: setitem k v d'
  end.

(** [{**d, **other}]: the items of [other] are stored into [d] in order. *)
Definition update (d other : list (string * V)) : list (string * V) :=
  fold_left (fun acc kv => setitem kv.1 kv.2 acc) other d.

(** The finite map a [dict] denotes; [==] on dicts compares these. *)
Definition to_map (d : list (string * V)) : gmap string V := list_to_map d.
End ops.
End Dict.

#[warnings="-register-all"]
Inductive pyval : Type :=
| PyInt (n : Z)
| PyBool (b : bool)
| PyStr (s : string)
| PyDict (items : list (string * pyval)).

(** [str(n)] for an [int]. *)
Definition str_int (n : Z) : string := NilEmpty.string_of_int (Z.to_int n).

Definition zeros (k : nat) : string := string_of_list_ascii (replicate k "0"%char).

(** [s.zfill]-style padding with ['0'] on the left up to [width]. *)
Definition zero_pad (width : nat) (s : string) : string :=
  zeros (width - String.length s) +:+ s.

(** ["%0<width>d" % n] *)
Definition format_0d (width : nat) (n : Z) : string :=
  if decide (n < 0) then "-" +:+ zero_pad (width - 1) (str_int (- n))
  else zero_pad width (str_int n).

(** The characters [repr] of a [str] copies unchanged between single
    quotes: printable ASCII other than the quote characters and the
    backslash. *)
Definition plain_char (c : ascii) : bool :=
  let n := nat_of_ascii c in
  (32 <=? n)%nat && (n <? 127)%nat
  && negb (Ascii.eqb c "'") && negb (Ascii.eqb c "034"%char) && negb (Ascii.eqb c "\").

Fixpoint plain (s : string) : bool :=
  match s with
  | EmptyString => true
  | String c s' => plain_char c && plain s'
  end.

(** [repr(s)] for a [str]. Python escapes backslashes, quotes and
    non-printable characters; on a [plain] string, which is all this
    program prints (field names and ISO dates), the result is the text
    between single quotes, and that is what the model prints. *)
Definition repr_str (s : string) : string := "'" +:+ s +:+ "'".

Definition join_items {V : Type} (f : V -> string) : list (string * V) -> string :=
  fix go (l : list (string * V)) : string :=
    match l with
    | [] => ""
    | (k, v) :: l' =>
        repr_str k +:+ ": " +:+ f v +:+
        match l' with [] => "" | _ :: _ => ", " +:+ go l' end
    end.

(** [repr(v)], which is also [str(v)] for every value but a [str]. *)
Fixpoint repr (v : pyval) : string :=
  match v with
  | PyInt n => str_int n
  | PyBool b => if b then "True" else "False"
  | PyStr s => repr_str s
  | PyDict items => "{" +:+ join_items repr items +:+ "}"
  end.

Definition str (v : pyval) : string :=
  match v with PyStr s => s | _ => repr v end.

(** *** The expression evaluator on literal displays

    [eval] is modelled on the fragment of Python expressions that [repr]
    emits: decimal integers with an optional sign, [True], [False],
    quoted strings without escape sequences, and dict displays with [str]
    keys. Any other text is reported as [None]. Python's [eval] runs any
    expression with the module's globals, so it can return other values
    and change the stores; the model is exact on the text that [str]
    prints from an analytics dict, which is all a state satisfying
    [cache_printed] holds, and statements about a hit on arbitrary cached
    text are made under that hypothesis. *)

Definition is_space (c : ascii) : bool :=
  Ascii.eqb c " " || Ascii.eqb c "009" || Ascii.eqb c "010" || Ascii.eqb c "013".

Fixpoint skip_ws (s : string) : string :=
  match s with
  | String c s' => if is_space c then skip_ws s' else s
  | EmptyString => s
  end.

Definition digit_of_ascii (c : ascii) : option (uint -> uint) :=
  match c with
  | "0" => Some D0 | "1" => Some D1 | "2" => Some D2 | "3" => Some D3
  | "4" => Some D4 | "5" => Some D5 | "6" => Some D6 | "7" => Some D7
  | "8" => Some D8 | "9" => Some D9 | _ => None
  end%char.

(** The longest prefix of decimal digits, and what follows it. *)
Fixpoint scan_digits (s : string) : uint * string :=
  match s with
  | String c s' =>
      match digit_of_ascii c with
      | Some D => let '(d, r) := scan_digits s' in (D d, r)
      | None => (Nil, s)
      end
  | EmptyString => (Nil, EmptyString)
  end.

#[global] Instance uint_eq_dec : EqDecision uint.
Proof. solve_decision. Defined.

(** A decimal literal is a non-empty digit sequence without a leading
    zero, or a sequence of zeros. *)
Definition decimal_literal (d : uint) : bool :=
  match d with
  | Nil => false
  | _ => bool_decide (unorm d = d) || bool_decide (nzhead d = Nil)
  end.

Definition eval_digits (s : string) : option (Z * string) :=
  let '(d, r) := scan_digits s in
  if decimal_literal d then Some (Z.of_uint d, r) else None.

(** The body of a string literal up to the closing quote [q]. *)
Fixpoint scan_quoted (q : ascii) (s : string) : option (string * string) :=
  match s with
  | EmptyString => None
  | String c s' =>
      if Ascii.eqb c q then Some (EmptyString, s')
      else if Ascii.eqb c "\" || Ascii.eqb c "010" then None
      else match scan_quoted q s' with
           | Some (body, r) => Some (String c body, r)
           | None => None
           end
  end.

Fixpoint strip_prefix (p s : string) : option string :=
  match p, s with
  | EmptyString, _ => Some s
  | String a p', String b s' => if Ascii.eqb a b then strip_prefix p' s' else None
  | String _ _, EmptyString => None
  end.

(** The text after the character [c], when [s] starts with it. *)
Definition head_is (c : ascii) (s : string) : option string :=
  match s with
  | String x r => if Ascii.eqb x c then Some r else None
  | EmptyString => None
  end.

Fixpoint eval_expr (fuel : nat) (s : string) {struct fuel} : option (pyval * string) :=
  match fuel with
  | O => None
  | S fuel' =>
      match skip_ws s with
      | EmptyString => None
      | String c r =>
          if Ascii.eqb c "{" then eval_items fuel' r []
          else if Ascii.eqb c "'" || Ascii.eqb c "034"%char then
            match scan_quoted c r with
            | Some (body, r') => Some (PyStr body, r')
            | None => None
            end
          else if Ascii.eqb c "-" then
            match eval_digits r with
            | Some (n, r') => Some (PyInt (- n), r')
            | None => None
            end
          else if Ascii.eqb c "T" then
            match strip_prefix "rue" r with
            | Some r' => Some (PyBool true, r')
            | None => None
            end
          else if Ascii.eqb c "F" then
            match strip_prefix "alse" r with
            | Some r' => Some (PyBool false, r')
            | None => None
            end
          else
            match eval_digits (String c r) with
            | Some (n, r') => Some (PyInt n, r')
            | None => None
            end
      end
  end
with eval_items (fuel : nat) (s : string) (acc : list (string * pyval)) {struct fuel}
    : option (pyval * string) :=
  match fuel with
  | O => None
  | S fuel' =>
      match head_is "}" (skip_ws s) with
      | Some r => Some (PyDict acc, r)
      | None =>
          match eval_expr fuel' s with
          | Some (PyStr k, r1) =>
              match head_is ":" (skip_ws r1) with
              | Some r2 =>
                  match eval_expr fuel' r2 with
                  | Some (v, r3) =>
                      let acc' := Dict.setitem k v acc in
                      match head_is "," (skip_ws r3) with
                      | Some r4 => eval_items fuel' r4 acc'
                      | None =>
                          match head_is "}" (skip_ws r3) with
                          | Some r4 => Some (PyDict acc', r4)
                          | None => None
                          end
                      end
                  | None => None
                  end
              | None => None
              end
          | _ => None
          end
      end
  end.

(** [eval(text)]: the whole text must be one expression. *)
Definition eval (text : string) : option pyval :=
  match eval_expr (S (String.length text)) text with
  | Some (v, r) => match skip_ws r with EmptyString => Some v | _ => None end
  | None => None
  end.

(** The values [repr] prints inside the fragment [eval] reads: strings
    and keys are [plain] and the keys of a dict are pairwise distinct. *)
Fixpoint literal (v : pyval) : Prop :=
  match v with
  | PyInt _ | PyBool _ => True
  | PyStr s => plain s = true
  | PyDict items =>
      NoDup items.*1
      /\ foldr (fun kv P => plain kv.1 = true /\ literal kv.2 /\ P) True items
  end.

(** Fuel that [eval_expr] needs on the text of a value. *)
Fixpoint cost (v : pyval) : nat :=
  match v with
  | PyDict items => S (S (foldr (fun kv n => S (cost kv.2 + n)) O items))
  | _ => 1%nat
  end.

Definition cost_items (l : list (string * pyval)) : nat :=
  foldr (fun kv n => S (cost kv.2 + n)) O l.

(** What follows a value inside a dict display. *)
Definition items_tail (l : list (string * pyval)) : string :=
  match l with [] => "" | _ :: _ => ", " +:+ join_items repr l end.

(** ** The aggregation of [get_analytics] *)

(** [d.isoformat()] for a [date]: ["%04d-%02d-%02d" % (year, month, day)]. *)
Definition isoformat (d : date) : string :=
  format_0d 4 (d_year d) +:+ "-" +:+ format_0d 2 (d_month d) +:+ "-"
  +:+ format_0d 2 (d_day d).

(** [v["time"].date().isoformat()] *)
Definition day_key (v : view) : string := isoformat (to_date (time v)).

(** [views_per_day[k] += 1] on a [defaultdict(int)]. *)
Definition incr (k : string) (d : list (string * Z)) : list (string * Z) :=
  Dict.setitem k (default 0 (Dict.get k d) + 1) d.

Definition total_views (views : list view) : Z := len views.

(** [len(set(v["ip"] for v in views))] *)
Definition unique_ips (views : list view) : Z :=
  Z.of_nat (size (list_to_set (ip <$> views) : gset string)).

(** The loop filling [views_per_day], started from the empty dict. *)
Definition views_per_day (views : list view) : list (string * Z) :=
  fold_left (fun acc v => incr (day_key v) acc) views [].

(** The [analytics] dict literal. *)
Definition analytics (views : list view) : list (string * pyval) :=
  [ ("total_views", PyInt (total_views views));
    ("unique_ips", PyInt (unique_ips views));
    ("views_per_day", PyDict (prod_map id PyInt <$> views_per_day views)) ].

(** ** The handlers

    Both handlers run behind [Depends(get_current_user)]; what is modelled
    is the handler body, for a request that passed authentication. The
    clock readings a body takes are arguments: [log_view] reads
    [datetime.utcnow()] once inside [rate_limit] and once for the event,
    and [get_analytics] meets the Redis clock at [get] and at [setex]. *)

Definition not_found : HTTPException :=
  {| status_code := 404; detail := "Media not found" |}.

(** What the framework answers when the body raises anything that is not
    an [HTTPException]. *)
Definition internal_server_error : HTTPException :=
  {| status_code := 500; detail := "Internal Server Error" |}.

(** [f"analytics:{media_id}"] *)
Definition cache_key (media_id : Z) : string := "analytics:" +:+ str_int media_id.

(** [views_db[media_id]] as an expression, a [defaultdict(list)] read. *)
Definition views_db_getitem (media_id : Z) : M (list view) :=
  fun st =>
    match views_db st !! media_id with
    | Some l => (Return l, st)
    | None => (Return [], with_views_db (insert media_id []) st)
    end.

Definition log_view (media_id : Z) (host : string) (now_limiter now : datetime)
    : M (list (string * pyval)) :=
  rate_limit host now_limiter;;
  registered ← gets (fun st => bool_decide (is_Some (media_db st !! media_id)));
  if negb registered then raise not_found
  else
    let ip := host in
    l ← views_db_getitem media_id;
    modify (with_views_db (insert media_id (l ++ [ {| ip := ip; time := now |} ])));;
    modify (with_redis_client (Redis.delete (cache_key media_id)));;
    mret [("msg", PyStr "View logged")].

Definition get_analytics (media_id : Z) (now_get now_setex : Z)
    : M (list (string * pyval)) :=
  registered ← gets (fun st => bool_decide (is_Some (media_db st !! media_id)));
  if negb registered then raise not_found
  else
    let cache_key := cache_key media_id in
    cached ← gets (fun st => Redis.get cache_key now_get (redis_client st));
    match cached with
    | Some (String c text) =>
        match eval (String c text) with
        | Some (PyDict d) => mret (Dict.update [("cached", PyBool true)] d)
        | _ => raise internal_server_error
        end
    | _ =>
        views ← views_db_getitem media_id;
        let analytics := analytics views in
        modify (with_redis_client
                  (Redis.setex cache_key 60 (str (PyDict analytics)) now_setex));;
        mret (Dict.update [("cached", PyBool false)] analytics)
    end.

(** The initial process state: every store empty. *)
Definition initial_state : state :=
  {| media_db := ∅; views_db := ∅; rate_limit_store := ∅; redis_client := ∅ |}.

(** ** Specification vocabulary for the aggregation *)

(** The events of [views] that fall on the day printed as [k]. *)
Definition on_day (k : string) (views : list view) : list view :=
  filter (fun v => day_key v = k) views.

(** The events of [views] whose timestamp has calendar date [d]. *)
Definition on_date (d : date) (views : list view) : list view :=
  filter (fun v => to_date (time v) = d) views.

(** A reader for the text [isoformat] prints, used to tell dates apart
    by their keys. *)
Definition parse_isoformat (s : string) : option date :=
  let '(y, r1) := scan_digits s in
  match r1 with
  | String "-" r2 =>
      let '(m, r3) := scan_digits r2 in
      match r3 with
      | String "-" r4 =>
          let '(d, r5) := scan_digits r4 in
          match r5 with
          | EmptyString =>
              Some {| d_year := Z.of_uint y; d_month := Z.of_uint m; d_day := Z.of_uint d |}
          | _ => None
          end
      | _ => None
      end
  | _ => None
  end.

Definition is_digit (c : ascii) : bool :=
  match digit_of_ascii c with Some _ => true | None => false end.

(** [n] characters, all of them decimal digits. *)
Definition digits_n (n : nat) (s : string) : bool :=
  Nat.eqb (String.length s) n && forallb is_digit (list_ascii_of_string s).

(** The shape [YYYY-MM-DD]. *)
Definition iso_shaped (s : string) : bool :=
  match list_ascii_of_string s with
  | [y1; y2; y3; y4; h1; m1; m2; h2; d1; d2] =>
      is_digit y1 && is_digit y2 && is_digit y3 && is_digit y4
      && Ascii.eqb h1 "-" && is_digit m1 && is_digit m2
      && Ascii.eqb h2 "-" && is_digit d1 && is_digit d2
  | _ => false
  end.

(** The text after a number does not go on with a digit. *)
Definition no_digit_head (s : string) : Prop :=
  match s with
  | String c _ => digit_of_ascii c = None
  | EmptyString => True
  end.

(** ** States the handlers lead to *)

(** The window of [ip] after the comprehension of [rate_limit]. *)
Definition pruned (ip : string) (now : datetime) (st : state) : list datetime :=
  filter (recent now) (window (rate_limit_store st) ip).

(** The state after a [log_view] that returned. *)
Definition logged (media_id : Z) (host : string) (now_limiter now : datetime)
    (st : state) : state :=
  with_redis_client (Redis.delete (cache_key media_id))
    (with_views_db
       (insert media_id (events (views_db st) media_id ++ [ {| ip := host; time := now |} ]))
       (with_rate_limit_store (insert host (pruned host now_limiter st ++ [now_limiter])) st)).

(** [views_db] after the expression [views_db[media_id]] was evaluated. *)
Definition touched (media_id : Z) (db : gmap Z (list view)) : gmap Z (list view) :=
  match db !! media_id with
  | Some _ => db
  | None => <[media_id := []]> db
  end.

(** [if cached:] fails: the key is absent, expired, or holds the empty
    text. *)
Definition missed (media_id now_get : Z) (st : state) : Prop :=
  match Redis.get (cache_key media_id) now_get (redis_client st) with
  | Some (String _ _) => False
  | _ => True
  end.

(** The state after a [get_analytics] that missed the cache. *)
Definition recomputed (media_id : Z) (now_setex : Z) (st : state) : state :=
  with_redis_client
    (Redis.setex (cache_key media_id) 60
       (str (PyDict (analytics (events (views_db st) media_id)))) now_setex)
    (with_views_db (touched media_id) st).

(** ** Requests and reachable states *)

(** [create_media]: the next id is [len(media_db) + 1]. *)
Definition create_media (media : Media) : M (list (string * pyval)) :=
  fun st =>
    let media_id := Z.of_nat (size (media_db st)) + 1 in
    (Return [ ("id", PyInt media_id); ("title", PyStr (title media));
              ("type", PyStr (type_ media)); ("file_url", PyStr (file_url media)) ],
     {| media_db := <[media_id := media]> (media_db st); views_db := views_db st;
        rate_limit_store := rate_limit_store st; redis_client := redis_client st |}).

Inductive request : Type :=
| CreateMedia (media : Media)
| LogView (media_id : Z) (host : string) (now_limiter now : datetime)
| GetAnalytics (media_id : Z) (now_get now_setex : Z).

(** The state a request leaves behind, whether it returned or raised. *)
Definition handle (r : request) (st : state) : state :=
  match r with
  | CreateMedia media => (create_media media st).2
  | LogView media_id host now_limiter now => (log_view media_id host now_limiter now st).2
  | GetAnalytics media_id now_get now_setex => (get_analytics media_id now_get now_setex st).2
  end.

Inductive reachable : state -> Prop :=
| reachable_initial : reachable initial_state
| reachable_handle (r : request) (st : state) : reachable st -> reachable (handle r st).

(** Every cached text was printed from an [analytics] dict. *)
Definition cache_printed (st : state) : Prop :=
  forall key e, redis_client st !! key = Some e ->
    exists views, Redis.value e = str (PyDict (analytics views)).

(** Modelled from the spec: the cache-unavailable condition of sections 5
    and 7, for [log_view]. [cache_up] tells whether the [delete] awaited
    on line 120 returns; when the server is not reached the [await]
    raises inside the handler, which has no [try], and the framework
    answers 500. With [cache_up = true] this is [log_view]. *)
Definition log_view_on (cache_up : bool) (media_id : Z) (host : string)
    (now_limiter now : datetime) : M (list (string * pyval)) :=
  rate_limit host now_limiter;;
  registered ← gets (fun st => bool_decide (is_Some (media_db st !! media_id)));
  if negb registered then raise not_found
  else
    let ip := host in
    l ← views_db_getitem media_id;
    modify (with_views_db (insert media_id (l ++ [ {| ip := ip; time := now |} ])));;
    (if cache_up
     then modify (with_redis_client (Redis.delete (cache_key media_id)))
     else raise internal_server_error);;
    mret [("msg", PyStr "View logged")].

(** The state after a [log_view] whose cache [delete] did not reach the
    server: the event is logged and the timestamp consumed. *)
Definition logged_uncached (media_id : Z) (host : string) (now_limiter now : datetime)
    (st : state) : state :=
  with_views_db
    (insert media_id (events (views_db st) media_id ++ [ {| ip := host; time := now |} ]))
    (with_rate_limit_store (insert host (pruned host now_limiter st ++ [now_limiter])) st).

(** ** Sample data *)

Definition at_time (y mo d h mi s : Z) : datetime := mk_datetime y mo d h mi s 0.

Definition client : string := "1.2.3.4".

(** Five requests within five seconds on 2 November 2026. *)
Definition burst : list datetime :=
  [ at_time 2026 11 2 10 0 0; at_time 2026 11 2 10 0 1; at_time 2026 11 2 10 0 2;
    at_time 2026 11 2 10 0 3; at_time 2026 11 2 10 0 4 ].

Definition after_burst : state :=
  fold_left (fun st t => (rate_limit client t st).2) burst initial_state.

(** One day and ten seconds after the first request of [burst]. *)
Definition next_day : datetime := at_time 2026 11 3 10 0 10.

(** A registry holding the single resource 42. *)
Definition one_media : state :=
  {| media_db := {[ 42 := {| title := "clip"; type_ := "video"; file_url := "/clip.mp4" |} ]};
     views_db := ∅; rate_limit_store := ∅; redis_client := ∅ |}.

Definition just_after_burst : datetime := at_time 2026 11 2 10 0 5.

(** The reading of [log_view] under which the existence check would come
    before the rate limiter: a missing resource gives 404 and costs the
    caller nothing. *)
Definition existence_checked_first (st : state) (media_id : Z) (host : string)
    (now_limiter now : datetime) : Prop :=
  media_db st !! media_id = None ->
  (log_view media_id host now_limiter now st).1 = Raise not_found
  /\ rate_limit_store (log_view media_id host now_limiter now st).2 = rate_limit_store st.

(** Three views on two days by two callers. *)
Definition sample_views : list view :=
  [ {| ip := "1.2.3.4"; time := at_time 2026 11 2 23 59 59 |};
    {| ip := "5.6.7.8"; time := at_time 2026 11 3 0 0 0 |};
    {| ip := "1.2.3.4"; time := at_time 2026 11 3 10 0 0 |} ].

(** ** Sequences of calls *)

(** The outcomes of calling [rate_limit ip] once per clock reading of
    [readings], in order. *)
Fixpoint admissions (ip : string) (readings : list datetime) (st : state)
    : list (outcome unit) :=
  match readings with
  | [] => []
  | now :: rest =>
      (rate_limit ip now st).1 :: admissions ip rest (rate_limit ip now st).2
  end.

(** Less than one day old and not in the future, seen from [now]. *)
Definition within_a_day (now ts : datetime) : Prop :=
  0 <= total_microseconds (Datetime.sub now ts) < 86400 * 1000000.

(** Less than [WINDOW] seconds of elapsed time before [now]. *)
Definition in_window (now ts : datetime) : Prop :=
  total_microseconds (Datetime.sub now ts) < WINDOW * 1000000.

#[global] Instance in_window_dec now ts : Decision (in_window now ts).
Proof. unfold in_window. apply _. Defined.

(** [sum(d.values())] *)
Definition sum_counts (d : list (string * Z)) : Z :=
  foldr (fun kv acc => kv.2 + acc) 0 d.

(** ** Invariants of the stores *)

(** The registered ids are [1 .. len(media_db)]. *)
Definition ids_consecutive (st : state) : Prop :=
  forall id, is_Some (media_db st !! id) <-> 1 <= id <= Z.of_nat (size (media_db st)).

(** Only registered resources have a [views_db] key or a cache key, and
    the cache holds nothing but analytics keys. *)
Definition registered_only (st : state) : Prop :=
  (forall id, is_Some (views_db st !! id) -> is_Some (media_db st !! id))
  /\ (forall key, is_Some (redis_client st !! key) ->
        exists id, key = cache_key id /\ is_Some (media_db st !! id)).

(** Every cache entry is the text of the analytics of the current log of
    its resource. *)
Definition cache_coherent (st : state) : Prop :=
  forall key e, redis_client st !! key = Some e ->
    exists id, key = cache_key id
      /\ Redis.value e = str (PyDict (analytics (events (views_db st) id))).

Definition windows_bounded (st : state) : Prop :=
  forall ip, len (window (rate_limit_store st) ip) <= RATE_LIMIT.

(** A registry, a view and a read, from the initial state. *)
Definition sample_media : Media :=
  {| title := "clip"; type_ := "video"; file_url := "/clip.mp4" |}.

Definition served : state :=
  handle (GetAnalytics 1 0 0)
    (handle (LogView 1 client next_day next_day)
       (handle (CreateMedia sample_media) initial_state)).

(** ** Accounts: [signup] and [login]

    [users_db] is touched by these two handlers only, so they are
    modelled over that store alone. A stored account is the dict
    [{"email": ..., "password": ...}]. *)

Record User := mk_User { email : string; password : string }.

Definition user_already_exists : HTTPException :=
  {| status_code := 400; detail := "User already exists" |}.

Definition invalid_credentials : HTTPException :=
  {| status_code := 401; detail := "Invalid credentials" |}.

Definition signup (user : User) (users_db : gmap string User)
    : outcome (list (string * pyval)) * gmap string User :=
  if decide (is_Some (users_db !! email user))
  then (Raise user_already_exists, users_db)
  else (Return [("msg", PyStr "User created")],
        <[email user := {| email := email user; password := password user |}]> users_db).

Section login.

(** The token issuer of lines 53-57 signs with the [jose] library and reads
    the clock; it is a parameter here, as is the configured lifetime. *)
Variable create_access_token : list (string * pyval) -> timedelta -> string.
Variable ACCESS_TOKEN_EXPIRE_MINUTES : Z.

Definition login (username pass : string) (users_db : gmap string User)
    : outcome (list (string * pyval)) :=
  match users_db !! username with
  | Some user =>
      if decide (password user <> pass) then Raise invalid_credentials
      else
        let token :=
          create_access_token [("sub", PyStr (email user))]
            (new_timedelta 0 (ACCESS_TOKEN_EXPIRE_MINUTES * 60) 0) in
        Return [("access_token", PyStr token); ("token_type", PyStr "bearer")]
  | None => Raise invalid_credentials
  end.

End login.

(** Every account is stored under its own address. *)
Definition keyed_by_email (users_db : gmap string User) : Prop :=
  forall k u, users_db !! k = Some u -> email u = k.

(** The accounts after a sequence of [signup] requests. *)
Definition signups (users : list User) (users_db : gmap string User) : gmap string User :=
  fold_left (fun db u => (signup u db).2) users users_db.

Definition alice : User := {| email := "alice@example.org"; password := "correct horse" |}.

(** A stand-in issuer for examples: the subject itself. *)
Definition subject_token (data : list (string * pyval)) (_ : timedelta) : string :=
  match Dict.get "sub" data with Some (PyStr s) => s | _ => "" end.

(** Resource 42 registered, no view logged, and under its cache key the
    text printed from the analytics of [sample_views], live until the
    server clock reads 60000. *)
Definition stale_cache : state :=
  {| media_db := media_db one_media; views_db := ∅; rate_limit_store := ∅;
     redis_client :=
       {[ cache_key 42 := {| Redis.value := str (PyDict (analytics sample_views));
                             Redis.expires_at := 60000 |} ]} |}.

(** * Properties *)

(** ** Reading the stores *)

Lemma window_insert_eq store ip l : window (<[ip := l]> store) ip = l.
Proof. unfold window. by rewrite lookup_insert_eq. Qed.

Lemma window_insert_ne store ip ip' l :
  ip ≠ ip' -> window (<[ip := l]> store) ip' = window store ip'.
Proof. intros H. unfold window. by rewrite lookup_insert_ne. Qed.

Lemma events_insert_eq db id l : events (<[id := l]> db) id = l.
Proof. unfold events. by rewrite lookup_insert_eq. Qed.

Lemma events_insert_ne db id id' l :
  id ≠ id' -> events (<[id := l]> db) id' = events db id'.
Proof. intros H. unfold events. by rewrite lookup_insert_ne. Qed.

(** ** The rate limiter in closed form *)

Lemma rate_limit_unfold ip now st :
  rate_limit ip now st =
  if decide (RATE_LIMIT <= len (pruned ip now st))
  then (Raise too_many_requests,
        with_rate_limit_store (insert ip (pruned ip now st)) st)
  else (Return tt,
        with_rate_limit_store (insert ip (pruned ip now st ++ [now])) st).
Proof.
  unfold rate_limit, pruned, window.
  unfold mbind, M_bind, rate_limit_store_getitem, rate_limit_store_setitem,
    modify, raise, with_rate_limit_store.
  destruct st as [mdb vdb rls rc]; simpl.
  destruct (rls !! ip) as [l|] eqn:Hl; simpl;
    rewrite ?lookup_insert_eq, ?insert_insert_eq; simpl;
    try case_decide; simpl; by rewrite ?insert_insert_eq.
Qed.

(** ** Capacity of a window *)

Lemma len_app_one {A : Type} (l : list A) (x : A) : len (l ++ [x]) = len l + 1.
Proof. unfold len. rewrite length_app. simpl. lia. Qed.

(** C4. After an admitted request the identity's window holds at most
    [RATE_LIMIT] timestamps (the pruned ones and [now]); an attempt that
    finds [RATE_LIMIT] or more timestamps after pruning raises 429 without
    appending, and the only change to the state is the pruning itself. *)
Theorem rate_limit_capacity (ip : string) (now : datetime) (st : state) :
  let kept := pruned ip now st in
  let r := (rate_limit ip now st).1 in
  let st' := (rate_limit ip now st).2 in
  (r = Return tt
   /\ len kept < RATE_LIMIT
   /\ window (rate_limit_store st') ip = kept ++ [now]
   /\ len (window (rate_limit_store st') ip) <= RATE_LIMIT)
  \/
  (r = Raise too_many_requests
   /\ RATE_LIMIT <= len kept
   /\ st' = with_rate_limit_store (insert ip kept) st
   /\ window (rate_limit_store st') ip = kept).
Proof.
  intros kept r st'. subst r st'. rewrite rate_limit_unfold. fold kept.
  case_decide as Hfull; simpl.
  - right. repeat split; [done|]. apply window_insert_eq.
  - left. rewrite window_insert_eq, len_app_one. repeat split; lia.
Qed.

(** ** The [seconds] field of a difference *)

Lemma total_microseconds_new_timedelta (d s us : Z) :
  total_microseconds (new_timedelta d s us) = (d * 86400 + s) * 1000000 + us.
Proof.
  unfold total_microseconds, new_timedelta. cbn [days seconds microseconds].
  set (total := (d * 86400 + s) * 1000000 + us).
  change 86400000000 with (1000000 * 86400). rewrite <- Z.div_div by lia.
  pose proof (Z.div_mod total 1000000 ltac:(lia)) as H1.
  pose proof (Z.div_mod (total / 1000000) 86400 ltac:(lia)) as H2.
  lia.
Qed.

Lemma seconds_sub (now ts : datetime) :
  seconds (Datetime.sub now ts)
  = (total_microseconds (Datetime.sub now ts) / 1000000) mod 86400.
Proof.
  unfold Datetime.sub. rewrite total_microseconds_new_timedelta. reflexivity.
Qed.

(** Within one day the test of the comprehension is the elapsed-time
    test; what it loses is the [days] field. *)
Lemma recent_within_a_day (now ts : datetime) :
  0 <= total_microseconds (Datetime.sub now ts) < 86400 * 1000000 ->
  recent now ts <-> total_microseconds (Datetime.sub now ts) < WINDOW * 1000000.
Proof.
  intros Hday. unfold recent. rewrite seconds_sub.
  set (total := total_microseconds (Datetime.sub now ts)) in *.
  pose proof (Z.div_mod total 1000000 ltac:(lia)) as Hdm.
  pose proof (Z.mod_pos_bound total 1000000 ltac:(lia)) as Hr.
  assert (0 <= total / 1000000 < 86400) as Hq by (split; [apply Z.div_pos|apply Z.div_lt_upper_bound]; lia).
  rewrite Z.mod_small by done. unfold WINDOW. lia.
Qed.

Lemma recent_ignores_days (now ts : datetime) :
  recent now ts <->
  (total_microseconds (Datetime.sub now ts)
   - days (Datetime.sub now ts) * 86400 * 1000000) < WINDOW * 1000000.
Proof.
  unfold recent. rewrite seconds_sub.
  set (total := total_microseconds (Datetime.sub now ts)).
  assert (days (Datetime.sub now ts) = total / 1000000 / 86400) as ->.
  { unfold total, Datetime.sub. rewrite total_microseconds_new_timedelta.
    unfold new_timedelta. cbn [days]. change 86400000000 with (1000000 * 86400).
    by rewrite Z.div_div by lia. }
  pose proof (Z.div_mod total 1000000 ltac:(lia)) as Hdm.
  pose proof (Z.mod_pos_bound total 1000000 ltac:(lia)) as Hr.
  pose proof (Z.div_mod (total / 1000000) 86400 ltac:(lia)) as Hdm2.
  unfold WINDOW. lia.
Qed.

(** ** Pruning by [timedelta.seconds] *)

(** C1. The comprehension tests the [seconds] field of the difference,
    which drops whole days: after five requests on one day, a request one
    day and ten seconds later still finds all five timestamps in the
    window, each more than [WINDOW] seconds old, and is rejected. *)
Theorem rate_limit_keeps_day_old_timestamps :
  window (rate_limit_store after_burst) client = burst
  /\ Forall (fun ts => WINDOW * 1000000 <= total_microseconds (Datetime.sub next_day ts)) burst
  /\ Forall (recent next_day) burst
  /\ (rate_limit client next_day after_burst).1 = Raise too_many_requests
  /\ window (rate_limit_store (rate_limit client next_day after_burst).2) client = burst.
Proof.
  split; [by vm_compute|].
  split; [repeat constructor; by vm_compute|].
  split; [repeat constructor; by vm_compute|].
  split; by vm_compute.
Qed.

(** ** The handlers in closed form *)

Lemma log_view_unfold media_id host now_limiter now st :
  log_view media_id host now_limiter now st =
  if decide (RATE_LIMIT <= len (pruned host now_limiter st))
  then (Raise too_many_requests,
        with_rate_limit_store (insert host (pruned host now_limiter st)) st)
  else
    match media_db st !! media_id with
    | None =>
        (Raise not_found,
         with_rate_limit_store
           (insert host (pruned host now_limiter st ++ [now_limiter])) st)
    | Some _ =>
        (Return [("msg", PyStr "View logged")],
         logged media_id host now_limiter now st)
    end.
Proof.
  unfold log_view, logged. unfold mbind at 1. unfold M_bind.
  rewrite rate_limit_unfold. case_decide as Hfull; [done|].
  unfold mbind, M_bind, gets, raise, modify, mret, M_ret, views_db_getitem, events.
  destruct st as [mdb vdb rls rc]; simpl.
  destruct (mdb !! media_id) as [m|] eqn:Hm; simpl; [|done].
  destruct (vdb !! media_id) as [l|] eqn:Hl; simpl; [done|].
  unfold with_redis_client, with_views_db; simpl. by rewrite insert_insert_eq.
Qed.

Lemma get_analytics_unfold media_id now_get now_setex st :
  get_analytics media_id now_get now_setex st =
  match media_db st !! media_id with
  | None => (Raise not_found, st)
  | Some _ =>
      match Redis.get (cache_key media_id) now_get (redis_client st) with
      | Some (String c text) =>
          match eval (String c text) with
          | Some (PyDict d) => (Return (Dict.update [("cached", PyBool true)] d), st)
          | _ => (Raise internal_server_error, st)
          end
      | _ =>
          (Return (Dict.update [("cached", PyBool false)]
                     (analytics (events (views_db st) media_id))),
           recomputed media_id now_setex st)
      end
  end.
Proof.
  unfold get_analytics, recomputed, touched, events.
  unfold mbind, M_bind, gets, raise, modify, mret, M_ret, views_db_getitem.
  destruct st as [mdb vdb rls rc]; simpl.
  destruct (mdb !! media_id) as [m|] eqn:Hm; simpl; [|done].
  destruct (Redis.get (cache_key media_id) now_get rc) as [[|c text]|] eqn:Hget; simpl.
  - unfold with_redis_client, with_views_db; simpl.
    by destruct (vdb !! media_id).
  - by destruct (eval (String c text)) as [[]|].
  - unfold with_redis_client, with_views_db; simpl.
    by destruct (vdb !! media_id).
Qed.

Lemma events_touched media_id db id : events (touched media_id db) id = events db id.
Proof.
  unfold touched. destruct (db !! media_id) eqn:Hl; [done|].
  destruct (decide (media_id = id)) as [->|Hne].
  - rewrite events_insert_eq. unfold events. by rewrite Hl.
  - by apply events_insert_ne.
Qed.

(** ** [get_analytics] leaves the limiter and the event log alone *)

(** C9. In every state whose cache holds only text the service printed
    (every reachable state is one), [get_analytics] never changes a rate
    window or the registry, never changes the event sequence of any
    resource (the only write to [views_db] stores the empty list under a
    key that had none), and never answers 429. *)
Theorem get_analytics_frame (media_id now_get now_setex : Z) (st : state) :
  cache_printed st ->
  let r := (get_analytics media_id now_get now_setex st).1 in
  let st' := (get_analytics media_id now_get now_setex st).2 in
  rate_limit_store st' = rate_limit_store st
  /\ (forall ip, window (rate_limit_store st') ip = window (rate_limit_store st) ip)
  /\ (forall id, events (views_db st') id = events (views_db st) id)
  /\ media_db st' = media_db st
  /\ (forall e, r = Raise e -> status_code e <> 429).
Proof.
  intros _ r st'. subst r st'. rewrite get_analytics_unfold.
  destruct (media_db st !! media_id) as [m|]; simpl.
  - destruct (Redis.get _ _ _) as [[|c text]|]; simpl.
    + repeat split; try done. intros id. apply events_touched.
    + destruct (eval (String c text)) as [[]|]; simpl; repeat split; try done;
        by intros e [= <-].
    + repeat split; try done. intros id. apply events_touched.
  - repeat split; try done. by intros e [= <-].
Qed.

Lemma get_analytics_frame_witness :
  rate_limit_store (get_analytics 42 1000 1000 stale_cache).2 = rate_limit_store stale_cache
  /\ events (views_db (get_analytics 42 1000 1000 stale_cache).2) 42 = [].
Proof.
  assert (cache_printed stale_cache) as Hprinted.
  { intros key e Hl. unfold stale_cache in Hl. cbn [redis_client] in Hl.
    apply lookup_singleton_Some in Hl as [_ <-]. by exists sample_views. }
  destruct (get_analytics_frame 42 1000 1000 stale_cache Hprinted) as (Hrl & _ & Hev & _).
  split; [exact Hrl|]. by rewrite Hev.
Defined.

(** ** [log_view] on a missing resource *)

(** C2, as stated, fails: after five requests in five seconds, a sixth for
    the unregistered resource 7 is answered 429, not 404. *)
Lemma log_view_missing_resource_rate_limited :
  ~ existence_checked_first after_burst 7 client just_after_burst just_after_burst.
Proof.
  unfold existence_checked_first. intros H.
  destruct H as [H _]; [by vm_compute|].
  vm_compute in H. discriminate H.
Qed.

(** C2, amended. For a resource that is not registered, [log_view] runs
    the rate limiter first: with [RATE_LIMIT] or more timestamps left
    after pruning it raises 429; otherwise it appends the limiter's clock
    reading to the caller's window and then raises 404. Either way no
    event is logged and the cache is not touched. *)
Theorem log_view_missing_resource (media_id : Z) (host : string)
    (now_limiter now : datetime) (st : state) :
  media_db st !! media_id = None ->
  let kept := pruned host now_limiter st in
  let r := (log_view media_id host now_limiter now st).1 in
  let st' := (log_view media_id host now_limiter now st).2 in
  (if decide (RATE_LIMIT <= len kept)
   then r = Raise too_many_requests /\ window (rate_limit_store st') host = kept
   else r = Raise not_found /\ window (rate_limit_store st') host = kept ++ [now_limiter])
  /\ (forall host', host <> host' ->
        window (rate_limit_store st') host' = window (rate_limit_store st) host')
  /\ views_db st' = views_db st
  /\ redis_client st' = redis_client st
  /\ media_db st' = media_db st.
Proof.
  intros Hmissing kept r st'. subst r st'. rewrite log_view_unfold. fold kept.
  rewrite Hmissing.
  case_decide as Hfull; simpl; (split; [by rewrite window_insert_eq|]);
    (split; [intros host' Hne; by apply window_insert_ne|done]).
Qed.

Lemma log_view_missing_resource_witness :
  (log_view 7 client just_after_burst just_after_burst after_burst).1
    = Raise too_many_requests
  /\ (log_view 7 client next_day next_day initial_state).1 = Raise not_found
  /\ window (rate_limit_store
               (log_view 7 client next_day next_day initial_state).2) client
     = [next_day].
Proof.
  pose proof (log_view_missing_resource 7 client just_after_burst just_after_burst
                after_burst eq_refl) as H1.
  pose proof (log_view_missing_resource 7 client next_day next_day
                initial_state eq_refl) as H2.
  cbv zeta in H1, H2.
  destruct H1 as [H1 _], H2 as [H2 _].
  destruct (decide (RATE_LIMIT <= len (pruned client just_after_burst after_burst)))
    as [_|Hn]; [|exfalso; apply Hn; by vm_compute].
  destruct (decide (RATE_LIMIT <= len (pruned client next_day initial_state)))
    as [Hy|_]; [exfalso; by vm_compute in Hy|].
  destruct H1 as [H1 _], H2 as [H2 H2'].
  split; [exact H1|]. split; [exact H2|]. exact H2'.
Defined.

(** ** Cache keys *)

Lemma str_int_inj (n m : Z) : str_int n = str_int m -> n = m.
Proof.
  unfold str_int. intros H.
  apply (f_equal NilEmpty.int_of_string) in H.
  rewrite !NilEmpty.isi in H. injection H as H.
  apply (f_equal Z.of_int) in H. by rewrite !DecimalZ.of_to in H.
Qed.

Lemma cache_key_inj (id id' : Z) : cache_key id = cache_key id' -> id = id'.
Proof. unfold cache_key. simpl. intros [= H]. by apply str_int_inj. Qed.

(** ** What a successful [log_view] changes *)

(** C10. A [log_view] that returns has appended one event (the caller's
    address and the handler's clock reading) to the log of [media_id],
    deleted the cache key of [media_id] and nothing else, and appended one
    timestamp to the caller's pruned window; the logs of other resources,
    the cache entries of other resources, the windows of other callers and
    the registry are as before. *)
Theorem log_view_success_frame (media_id : Z) (host : string)
    (now_limiter now : datetime) (st st' : state) (resp : list (string * pyval)) :
  log_view media_id host now_limiter now st = (Return resp, st') ->
  events (views_db st') media_id
    = events (views_db st) media_id ++ [ {| ip := host; time := now |} ]
  /\ (forall id, id <> media_id -> events (views_db st') id = events (views_db st) id)
  /\ redis_client st' = Redis.delete (cache_key media_id) (redis_client st)
  /\ redis_client st' !! cache_key media_id = None
  /\ (forall key, key <> cache_key media_id ->
        redis_client st' !! key = redis_client st !! key)
  /\ (forall id, id <> media_id ->
        redis_client st' !! cache_key id = redis_client st !! cache_key id)
  /\ window (rate_limit_store st') host = pruned host now_limiter st ++ [now_limiter]
  /\ (forall host', host' <> host ->
        window (rate_limit_store st') host' = window (rate_limit_store st) host')
  /\ media_db st' = media_db st.
Proof.
  rewrite log_view_unfold. case_decide as Hfull; [done|].
  destruct (media_db st !! media_id) as [m|]; [|done].
  intros [= <- <-]. unfold logged; simpl. unfold Redis.delete.
  split; [apply events_insert_eq|].
  split; [intros id Hne; by apply events_insert_ne|].
  split; [done|].
  split; [apply lookup_delete_eq|].
  split; [intros key Hne; by apply lookup_delete_ne|].
  split; [intros id Hne; apply lookup_delete_ne; intros Hk; by apply cache_key_inj in Hk|].
  split; [apply window_insert_eq|].
  split; [intros host' Hne; by apply window_insert_ne|done].
Qed.

Lemma log_view_success_frame_witness :
  events (views_db (log_view 42 client next_day next_day one_media).2) 42
  = [ {| ip := client; time := next_day |} ].
Proof.
  pose proof (log_view_success_frame 42 client next_day next_day one_media
                (log_view 42 client next_day next_day one_media).2
                [("msg", PyStr "View logged")]) as H.
  destruct H as [H _]; [by vm_compute|]. exact H.
Defined.

(** ** Insertion-ordered dicts *)

Section dict_facts.
Context {V : Type}.
Implicit Types (d : list (string * V)) (k : string) (v : V).

Lemma get_setitem_eq k v d : Dict.get k (Dict.setitem k v d) = Some v.
Proof.
  induction d as [|[k' v'] d IH]; simpl.
  - by rewrite decide_True.
  - destruct (decide (k = k')) as [->|Hne]; simpl.
    + by rewrite decide_True.
    + by rewrite decide_False.
Qed.

Lemma get_setitem_ne k k' v d :
  k <> k' -> Dict.get k' (Dict.setitem k v d) = Dict.get k' d.
Proof.
  intros Hne. induction d as [|[k0 v0] d IH]; simpl.
  - by rewrite decide_False.
  - destruct (decide (k = k0)) as [->|Hne0]; simpl.
    + by rewrite !(decide_False (P := k' = k0)).
    + by rewrite IH.
Qed.

Lemma get_to_map k d : Dict.to_map d !! k = Dict.get k d.
Proof.
  unfold Dict.to_map. induction d as [|[k' v'] d IH]; simpl; [done|].
  destruct (decide (k = k')) as [->|Hne].
  - by rewrite lookup_insert_eq.
  - by rewrite lookup_insert_ne.
Qed.

Lemma keys_setitem k v d :
  (Dict.setitem k v d).*1 = if decide (k ∈ d.*1) then d.*1 else d.*1 ++ [k].
Proof.
  induction d as [|[k' v'] d IH].
  - rewrite decide_False; [done|]. apply not_elem_of_nil.
  - cbn [Dict.setitem]. rewrite !fmap_cons. cbn [fst].
    destruct (decide (k = k')) as [->|Hne].
    + rewrite fmap_cons. cbn [fst].
      rewrite decide_True; [done|]. apply list_elem_of_here.
    + rewrite fmap_cons, IH. cbn [fst].
      destruct (decide (k ∈ d.*1)) as [Hin|Hnin].
      * rewrite decide_True; [done|]. by apply list_elem_of_further.
      * rewrite decide_False; [done|].
        intros [?|?]%elem_of_cons; done.
Qed.

Lemma NoDup_setitem k v d : NoDup d.*1 -> NoDup (Dict.setitem k v d).*1.
Proof.
  intros Hd. rewrite keys_setitem. case_decide as Hin; [done|].
  apply NoDup_app. split; [done|]. split; [|apply NoDup_singleton].
  intros x Hx ->%list_elem_of_singleton. done.
Qed.

Lemma setitem_fresh k v d : k ∉ d.*1 -> Dict.setitem k v d = d ++ [(k, v)].
Proof.
  induction d as [|[k' v'] d IH]; simpl; [done|].
  intros Hnin. rewrite not_elem_of_cons in Hnin. destruct Hnin as [Hne Hnin].
  rewrite decide_False by done. by rewrite IH.
Qed.
End dict_facts.

(** ** The [views_per_day] loop *)

Lemma get_incr_eq k d : Dict.get k (incr k d) = Some (default 0 (Dict.get k d) + 1).
Proof. apply get_setitem_eq. Qed.

Lemma get_incr_ne k k' d : k <> k' -> Dict.get k' (incr k d) = Dict.get k' d.
Proof. apply get_setitem_ne. Qed.

Lemma on_day_cons k v views :
  on_day k (v :: views) = if decide (day_key v = k) then v :: on_day k views else on_day k views.
Proof. unfold on_day. by rewrite filter_cons. Qed.

Lemma len_cons {A : Type} (x : A) (l : list A) : len (x :: l) = len l + 1.
Proof. unfold len. simpl length. lia. Qed.

Lemma len_zero {A : Type} (l : list A) : len l = 0 <-> l = [].
Proof. unfold len. destruct l; simpl; split; intros; try done; lia. Qed.

Lemma get_fold_incr (views : list view) (acc : list (string * Z)) (k : string) :
  Dict.get k (fold_left (fun acc v => incr (day_key v) acc) views acc)
  = if decide (on_day k views = []) then Dict.get k acc
    else Some (default 0 (Dict.get k acc) + len (on_day k views)).
Proof.
  revert acc. induction views as [|v views IH]; intros acc; [done|].
  cbn [fold_left]. rewrite IH, on_day_cons.
  destruct (decide (day_key v = k)) as [Hk|Hk].
  - rewrite Hk, get_incr_eq, (decide_False (P := _ :: _ = [])) by done.
    rewrite len_cons. case_decide as Hnil.
    + rewrite Hnil. f_equal.
    + simpl. f_equal. lia.
  - by rewrite get_incr_ne.
Qed.

Lemma NoDup_fold_incr (views : list view) (acc : list (string * Z)) :
  NoDup acc.*1 -> NoDup (fold_left (fun acc v => incr (day_key v) acc) views acc).*1.
Proof.
  revert acc. induction views as [|v views IH]; intros acc Hacc; [done|].
  cbn [fold_left]. apply IH. by apply NoDup_setitem.
Qed.

Lemma get_views_per_day (views : list view) (k : string) :
  Dict.get k (views_per_day views)
  = if decide (on_day k views = []) then None else Some (len (on_day k views)).
Proof.
  unfold views_per_day. rewrite get_fold_incr. case_decide; [done|].
  simpl. f_equal.
Qed.

Lemma NoDup_views_per_day (views : list view) : NoDup (views_per_day views).*1.
Proof. apply NoDup_fold_incr. constructor. Qed.

Lemma unique_ips_remove_dups (views : list view) :
  unique_ips views = len (remove_dups (ip <$> views)).
Proof.
  unfold unique_ips, len. f_equal.
  rewrite <- (size_list_to_set (C := gset string)) by apply NoDup_remove_dups.
  f_equal. apply set_eq. intros c.
  by rewrite !elem_of_list_to_set, elem_of_remove_dups.
Qed.

(** ** Reading back printed numbers *)

Lemma append_cons (x : ascii) (a b : string) : String x a +:+ b = String x (a +:+ b).
Proof. reflexivity. Qed.

Lemma append_empty_l (b : string) : "" +:+ b = b.
Proof. reflexivity. Qed.

Lemma append_empty_r (a : string) : a +:+ "" = a.
Proof. induction a as [|x a IH]; [done|]. rewrite append_cons. by f_equal. Qed.

Lemma append_assoc (a b c : string) : (a +:+ b) +:+ c = a +:+ (b +:+ c).
Proof. induction a as [|x a IH]; [done|]. rewrite !append_cons. by f_equal. Qed.

Lemma length_append (a b : string) :
  String.length (a +:+ b) = (String.length a + String.length b)%nat.
Proof. induction a as [|x a IH]; [done|]. rewrite append_cons. simpl. by f_equal. Qed.

Create Rewrite HintDb str.
#[global] Hint Rewrite append_assoc append_cons append_empty_l : str.

Ltac str_norm := autorewrite with str.

Lemma scan_digits_string_of_uint (d : uint) (rest : string) :
  no_digit_head rest ->
  scan_digits (NilEmpty.string_of_uint d +:+ rest) = (d, rest).
Proof.
  intros Hrest. induction d; cbn [NilEmpty.string_of_uint]; str_norm;
    cbn [scan_digits digit_of_ascii]; rewrite ?IHd; try done.
  destruct rest as [|c rest]; simpl in *; [done|]. by rewrite Hrest.
Qed.

Lemma zeros_S (k : nat) : zeros (S k) = String "0" (zeros k).
Proof. reflexivity. Qed.

Lemma scan_digits_zeros (k : nat) (s : string) :
  scan_digits (zeros k +:+ s)
  = (Nat.iter k D0 (scan_digits s).1, (scan_digits s).2).
Proof.
  induction k as [|k IH].
  - change (zeros 0) with EmptyString. str_norm. by destruct (scan_digits s).
  - rewrite zeros_S. str_norm. cbn [scan_digits digit_of_ascii]. by rewrite IH.
Qed.

Lemma of_uint_zeros (k : nat) (d : uint) : Z.of_uint (Nat.iter k D0 d) = Z.of_uint d.
Proof. induction k as [|k IH]; [done|]. simpl. exact IH. Qed.

Lemma str_int_nonneg (n : Z) :
  0 <= n -> str_int n = NilEmpty.string_of_uint (N.to_uint (Z.to_N n)).
Proof. intros Hn. destruct n; done || lia. Qed.

Lemma of_uint_to_uint (n : Z) : 0 <= n -> Z.of_uint (N.to_uint (Z.to_N n)) = n.
Proof.
  intros Hn. unfold Z.of_uint.
  change (Pos.of_uint ?d) with (N.of_uint d).
  rewrite DecimalN.Unsigned.of_to. lia.
Qed.

Lemma unorm_to_uint (m : N) : unorm (N.to_uint m) = N.to_uint m.
Proof.
  rewrite <- (DecimalN.Unsigned.of_to m) at 2.
  by rewrite DecimalN.Unsigned.to_of.
Qed.

Lemma to_uint_nonnil (m : N) : N.to_uint m <> Nil.
Proof. rewrite <- unorm_to_uint. apply DecimalFacts.unorm_nonnil. Qed.

Lemma scan_digits_format_0d (width : nat) (n : Z) (rest : string) :
  0 <= n -> no_digit_head rest ->
  exists d, scan_digits (format_0d width n +:+ rest) = (d, rest) /\ Z.of_uint d = n.
Proof.
  intros Hn Hrest. unfold format_0d, zero_pad. rewrite decide_False by lia.
  rewrite str_int_nonneg by done.
  rewrite append_assoc, scan_digits_zeros, scan_digits_string_of_uint by done.
  eexists. split; [done|]. cbn [fst]. by rewrite of_uint_zeros, of_uint_to_uint.
Qed.

Lemma parse_isoformat_isoformat (d : date) :
  0 <= d_year d -> 0 <= d_month d -> 0 <= d_day d ->
  parse_isoformat (isoformat d) = Some d.
Proof.
  intros Hy Hm Hd. unfold parse_isoformat, isoformat.
  destruct (scan_digits_format_0d 4 (d_year d)
              ("-" +:+ format_0d 2 (d_month d) +:+ "-" +:+ format_0d 2 (d_day d)) Hy)
    as (y & -> & Ey); [done|].
  str_norm. destruct (scan_digits_format_0d 2 (d_month d)
              ("-" +:+ format_0d 2 (d_day d)) Hm) as (m & Hscan & Em); [done|].
  revert Hscan. str_norm. intros ->.
  destruct (scan_digits_format_0d 2 (d_day d) "" Hd) as (x & Hx & Ex); [done|].
  rewrite append_empty_r in Hx. rewrite Hx, Ey, Em, Ex. by destruct d.
Qed.

Lemma isoformat_inj (d d' : date) :
  valid_date d -> valid_date d' -> isoformat d = isoformat d' -> d = d'.
Proof.
  intros (Hy & Hm & Hd) (Hy' & Hm' & Hd') Heq.
  apply (f_equal parse_isoformat) in Heq.
  rewrite !parse_isoformat_isoformat in Heq by lia. by injection Heq.
Qed.

(** ** The shape of a day key *)

Lemma format_year_shape (y : Z) : 1 <= y <= 9999 -> digits_n 4 (format_0d 4 y) = true.
Proof.
  intros Hy.
  assert (Forall (fun y => digits_n 4 (format_0d 4 y) = true) (seqZ 1 9999)) as Hall.
  { apply (bool_decide_unpack _). by vm_compute. }
  rewrite Forall_forall in Hall. apply Hall. apply elem_of_seqZ. lia.
Qed.

Lemma format_two_shape (n : Z) : 1 <= n <= 31 -> digits_n 2 (format_0d 2 n) = true.
Proof.
  intros Hn.
  assert (Forall (fun n => digits_n 2 (format_0d 2 n) = true) (seqZ 1 31)) as Hall.
  { apply (bool_decide_unpack _). by vm_compute. }
  rewrite Forall_forall in Hall. apply Hall. apply elem_of_seqZ. lia.
Qed.

Lemma days_in_month_le (y m : Z) : _days_in_month y m <= 31.
Proof.
  unfold _days_in_month. destruct ((m =? 2) && _is_leap y); [lia|].
  unfold _DAYS_IN_MONTH. generalize (Z.to_nat m). intros k.
  do 13 (destruct k as [|k]; [simpl; lia|]). destruct k; simpl; lia.
Qed.

Lemma isoformat_shaped (d : date) : valid_date d -> iso_shaped (isoformat d) = true.
Proof.
  intros (Hy & Hm & Hd).
  pose proof (days_in_month_le (d_year d) (d_month d)) as Hle.
  pose proof (format_year_shape (d_year d) Hy) as H4.
  pose proof (format_two_shape (d_month d) ltac:(lia)) as H2.
  pose proof (format_two_shape (d_day d) ltac:(lia)) as H2'.
  unfold isoformat.
  destruct (format_0d 4 (d_year d)) as [|y1 [|y2 [|y3 [|y4 [|? ?]]]]]; try done.
  destruct (format_0d 2 (d_month d)) as [|m1 [|m2 [|? ?]]]; try done.
  destruct (format_0d 2 (d_day d)) as [|d1 [|d2 [|? ?]]]; try done.
  unfold digits_n in *. cbn in H4, H2, H2'. unfold iso_shaped. str_norm. cbn.
  repeat match goal with H : _ && _ = true |- _ => apply andb_prop in H as [? ?] end.
  repeat match goal with H : is_digit _ = true |- _ => rewrite H; clear H end.
  done.
Qed.

(** ** The aggregation *)

Lemma elem_of_keys_get {V : Type} (k : string) (d : list (string * V)) :
  k ∈ d.*1 <-> is_Some (Dict.get k d).
Proof.
  induction d as [|[k' v'] d IH]; simpl.
  - split; [by intros ?%elem_of_nil|by intros [? ?]].
  - rewrite elem_of_cons, IH. destruct (decide (k = k')) as [->|Hne].
    + split; [by eexists|by left].
    + split; [by intros [?|?]|by right].
Qed.

Lemma on_day_isoformat (views : list view) (d : date) :
  Forall (fun v => valid (time v)) views -> valid_date d ->
  on_day (isoformat d) views = on_date d views.
Proof.
  intros Hvalid Hd. unfold on_day, on_date.
  induction Hvalid as [|v views Hv _ IH]; [done|].
  rewrite !filter_cons, IH. destruct Hv as [Hv _].
  destruct (decide (to_date (time v) = d)) as [Heq|Hne].
  - rewrite decide_True; [done|]. unfold day_key. by rewrite Heq.
  - rewrite decide_False; [done|]. unfold day_key. intros Heq.
    by apply isoformat_inj in Heq.
Qed.

(** C3. For every event sequence, [total_views] is its length,
    [unique_ips] is the number of distinct caller addresses in it, and
    [views_per_day] maps a key to the number of events whose UTC date
    prints as that key, with a key present only if there is such an event;
    for valid timestamps the key of a date has the shape [YYYY-MM-DD] and
    its count is the number of events on that calendar date. *)
Theorem aggregation_correct (views : list view) :
  total_views views = len views
  /\ unique_ips views = len (remove_dups (ip <$> views))
  /\ (forall c, c ∈ remove_dups (ip <$> views) <-> exists v, v ∈ views /\ ip v = c)
  /\ NoDup (views_per_day views).*1
  /\ (forall k, Dict.get k (views_per_day views)
               = if decide (on_day k views = []) then None
                 else Some (len (on_day k views)))
  /\ (forall k, k ∈ (views_per_day views).*1 <-> exists v, v ∈ views /\ day_key v = k)
  /\ (Forall (fun v => valid (time v)) views ->
      forall d, valid_date d ->
        iso_shaped (isoformat d) = true
        /\ Dict.get (isoformat d) (views_per_day views)
           = if decide (on_date d views = []) then None
             else Some (len (on_date d views))).
Proof.
  split; [done|]. split; [apply unique_ips_remove_dups|].
  split.
  { intros c. rewrite elem_of_remove_dups, list_elem_of_fmap. split.
    - intros (v & -> & Hin). by exists v.
    - intros (v & Hin & <-). by exists v. }
  split; [apply NoDup_views_per_day|].
  split; [apply get_views_per_day|].
  split.
  { intros k. rewrite elem_of_keys_get, get_views_per_day. split.
    - case_decide as Hnil; [by intros [? ?]|]. intros _.
      destruct (on_day k views) as [|v rest] eqn:Hon; [done|].
      assert (v ∈ on_day k views) as Hin by (rewrite Hon; apply list_elem_of_here).
      apply list_elem_of_filter in Hin as [Hk Hin]. by exists v.
    - intros (v & Hin & Hk). rewrite decide_False; [by eexists|].
      intros Hnil. assert (v ∈ on_day k views) as Hv.
      { apply list_elem_of_filter. done. }
      rewrite Hnil in Hv. by apply elem_of_nil in Hv. }
  intros Hvalid d Hd. split; [by apply isoformat_shaped|].
  by rewrite get_views_per_day, on_day_isoformat.
Qed.

Lemma aggregation_correct_witness :
  Dict.get "2026-11-03" (views_per_day sample_views) = Some 2
  /\ unique_ips sample_views = 2.
Proof.
  destruct (aggregation_correct sample_views) as (_ & Hips & _ & _ & _ & _ & Hdate).
  split.
  - assert (Forall (fun v => valid (time v)) sample_views) as Hvalid.
    { repeat constructor; by vm_compute. }
    assert (valid_date (mk_date 2026 11 3)) as Hd.
    { repeat split; by vm_compute. }
    destruct (Hdate Hvalid _ Hd) as [_ Hget]. exact Hget.
  - exact Hips.
Defined.

(** ** Order independence *)

Lemma on_day_perm (k : string) (views views' : list view) :
  views ≡ₚ views' -> len (on_day k views) = len (on_day k views').
Proof. intros Hp. unfold len, on_day. by rewrite Hp. Qed.

(** C6. The three metrics do not depend on the order of the events: for
    a permutation of the sequence the count and the number of distinct
    callers are equal and [views_per_day] denotes the same mapping (equal
    lookups at every key, which is what [==] on dicts compares). The
    metrics are functions of the event sequence alone, and a sequence is a
    permutation of itself, so computing twice on the same sequence gives
    the same result. *)
Theorem aggregation_order_independent (views views' : list view) :
  views ≡ₚ views' ->
  total_views views = total_views views'
  /\ unique_ips views = unique_ips views'
  /\ (forall k, Dict.get k (views_per_day views) = Dict.get k (views_per_day views'))
  /\ Dict.to_map (views_per_day views) = Dict.to_map (views_per_day views').
Proof.
  intros Hp.
  assert (forall k, Dict.get k (views_per_day views) = Dict.get k (views_per_day views'))
    as Hget.
  { intros k. rewrite !get_views_per_day.
    pose proof (on_day_perm k _ _ Hp) as Hlen.
    destruct (decide (on_day k views = [])) as [Hnil|Hnn];
      destruct (decide (on_day k views' = [])) as [Hnil'|Hnn'];
      rewrite ?Hlen; try done.
    - rewrite Hnil in Hlen. symmetry in Hlen. by apply len_zero in Hlen.
    - rewrite Hnil' in Hlen. by apply len_zero in Hlen. }
  split; [unfold total_views, len; by rewrite Hp|].
  split; [unfold unique_ips; by rewrite Hp|].
  split; [done|].
  apply map_eq. intros k. by rewrite !get_to_map.
Qed.

Lemma aggregation_order_independent_witness :
  Dict.to_map (views_per_day sample_views) = Dict.to_map (views_per_day (reverse sample_views))
  /\ views_per_day sample_views <> views_per_day (reverse sample_views).
Proof.
  split.
  - apply (aggregation_order_independent sample_views (reverse sample_views)).
    symmetry. apply reverse_Permutation.
  - by vm_compute.
Defined.

(** ** Reading back what [repr] prints *)

Lemma pyval_nested_ind (P : pyval -> Prop) :
  (forall n, P (PyInt n)) ->
  (forall b, P (PyBool b)) ->
  (forall s, P (PyStr s)) ->
  (forall items, Forall (fun kv => P kv.2) items -> P (PyDict items)) ->
  forall v, P v.
Proof.
  intros Hint Hbool Hstr Hdict. fix IH 1. intros [n|b|s|items].
  - apply Hint.
  - apply Hbool.
  - apply Hstr.
  - apply Hdict.
    refine ((fix go (l : list (string * pyval)) : Forall (fun kv => P kv.2) l :=
               match l with
               | [] => Forall_nil_2 _
               | kv :: l' => Forall_cons_2 _ _ _ (IH kv.2) (go l')
               end) items).
Qed.

Lemma is_digit_not_space (c : ascii) : is_digit c = true -> is_space c = false.
Proof. destruct c as [[] [] [] [] [] [] [] []]; by vm_compute. Qed.

Lemma eval_expr_digit (fuel : nat) (c : ascii) (r : string) :
  is_digit c = true ->
  eval_expr (S fuel) (String c r) =
  match eval_digits (String c r) with
  | Some (n, r') => Some (PyInt n, r')
  | None => None
  end.
Proof.
  intros Hc. cbn [eval_expr skip_ws]. rewrite is_digit_not_space by done.
  destruct c as [[] [] [] [] [] [] [] []]; try discriminate Hc; reflexivity.
Qed.

Lemma head_string_of_uint (d : uint) :
  d <> Nil -> exists c r, NilEmpty.string_of_uint d = String c r /\ is_digit c = true.
Proof. destruct d; intros Hd; try done; by eexists _, _. Qed.

Lemma eval_digits_string_of_uint (d : uint) (rest : string) :
  decimal_literal d = true -> no_digit_head rest ->
  eval_digits (NilEmpty.string_of_uint d +:+ rest) = Some (Z.of_uint d, rest).
Proof.
  intros Hd Hrest. unfold eval_digits.
  rewrite scan_digits_string_of_uint by done. by rewrite Hd.
Qed.

Lemma decimal_literal_to_uint (m : N) : decimal_literal (N.to_uint m) = true.
Proof.
  pose proof (to_uint_nonnil m) as Hnn. pose proof (unorm_to_uint m) as Hun.
  unfold decimal_literal. destruct (N.to_uint m); try done;
    by rewrite (bool_decide_eq_true_2 _ Hun).
Qed.

Lemma eval_expr_minus (fuel : nat) (r : string) :
  eval_expr (S fuel) (String "-" r) =
  match eval_digits r with
  | Some (n, r') => Some (PyInt (- n), r')
  | None => None
  end.
Proof. reflexivity. Qed.

Lemma eval_expr_quote (fuel : nat) (r : string) :
  eval_expr (S fuel) (String "'" r) =
  match scan_quoted "'" r with
  | Some (body, r') => Some (PyStr body, r')
  | None => None
  end.
Proof. reflexivity. Qed.

Lemma eval_expr_brace (fuel : nat) (r : string) :
  eval_expr (S fuel) (String "{" r) = eval_items fuel r [].
Proof. reflexivity. Qed.

Lemma eval_expr_space (fuel : nat) (r : string) :
  eval_expr fuel (String " " r) = eval_expr fuel r.
Proof. by destruct fuel. Qed.

Lemma eval_items_space (fuel : nat) (r : string) (acc : list (string * pyval)) :
  eval_items fuel (String " " r) acc = eval_items fuel r acc.
Proof.
  destruct fuel as [|fuel]; [done|]. cbn [eval_items].
  change (skip_ws (String " " r)) with (skip_ws r). by rewrite eval_expr_space.
Qed.

Lemma eval_expr_int (fuel : nat) (n : Z) (rest : string) :
  no_digit_head rest ->
  eval_expr (S fuel) (str_int n +:+ rest) = Some (PyInt n, rest).
Proof.
  intros Hrest. destruct (decide (0 <= n)) as [Hn|Hn].
  - rewrite str_int_nonneg by done.
    pose proof (eval_digits_string_of_uint (N.to_uint (Z.to_N n)) rest
                  (decimal_literal_to_uint _) Hrest) as He.
    destruct (head_string_of_uint (N.to_uint (Z.to_N n)) (to_uint_nonnil _))
      as (c & r & Hs & Hc).
    rewrite Hs in *. rewrite append_cons in *.
    rewrite eval_expr_digit, He by done. by rewrite of_uint_to_uint.
  - destruct n as [|p|p]; try lia.
    change (str_int (Z.neg p)) with (String "-" (NilEmpty.string_of_uint (N.to_uint (N.pos p)))).
    rewrite append_cons, eval_expr_minus.
    rewrite eval_digits_string_of_uint by (done || apply decimal_literal_to_uint).
    assert (Z.of_uint (N.to_uint (N.pos p)) = Z.pos p) as ->
      by (apply (of_uint_to_uint (Z.pos p)); lia).
    done.
Qed.

Lemma plain_char_facts (c : ascii) :
  plain_char c = true ->
  Ascii.eqb c "'" = false /\ Ascii.eqb c "\" = false /\ Ascii.eqb c "010" = false.
Proof. destruct c as [[] [] [] [] [] [] [] []]; by vm_compute. Qed.

Lemma scan_quoted_plain (s rest : string) :
  plain s = true -> scan_quoted "'" (s +:+ String "'" rest) = Some (s, rest).
Proof.
  induction s as [|c s IH]; [done|]. cbn [plain]. intros [Hc Hs]%andb_prop.
  destruct (plain_char_facts c Hc) as (Hq & Hb & Hn).
  rewrite append_cons. cbn [scan_quoted]. rewrite Hq, Hb, Hn. cbn [orb].
  by rewrite IH.
Qed.

Lemma eval_expr_str (fuel : nat) (s rest : string) :
  plain s = true -> eval_expr (S fuel) (repr_str s +:+ rest) = Some (PyStr s, rest).
Proof.
  intros Hs. unfold repr_str. str_norm. rewrite eval_expr_quote.
  by rewrite scan_quoted_plain.
Qed.

Lemma eval_expr_bool (fuel : nat) (b : bool) (rest : string) :
  eval_expr (S fuel) (repr (PyBool b) +:+ rest) = Some (PyBool b, rest).
Proof. by destruct b. Qed.

Lemma literal_dict (items : list (string * pyval)) :
  literal (PyDict items)
  <-> NoDup items.*1 /\ Forall (fun kv => plain kv.1 = true /\ literal kv.2) items.
Proof.
  cbn [literal]. apply and_iff_compat_l.
  induction items as [|kv items IH]; cbn [foldr].
  - split; [constructor|done].
  - rewrite Forall_cons, IH. tauto.
Qed.

Lemma eval_items_S (fuel : nat) (s : string) (acc : list (string * pyval)) :
  eval_items (S fuel) s acc =
  match head_is "}" (skip_ws s) with
  | Some r => Some (PyDict acc, r)
  | None =>
      match eval_expr fuel s with
      | Some (PyStr k, r1) =>
          match head_is ":" (skip_ws r1) with
          | Some r2 =>
              match eval_expr fuel r2 with
              | Some (v, r3) =>
                  match head_is "," (skip_ws r3) with
                  | Some r4 => eval_items fuel r4 (Dict.setitem k v acc)
                  | None =>
                      match head_is "}" (skip_ws r3) with
                      | Some r4 => Some (PyDict (Dict.setitem k v acc), r4)
                      | None => None
                      end
                  end
              | None => None
              end
          | None => None
          end
      | _ => None
      end
  end.
Proof. reflexivity. Qed.

Lemma join_items_cons (k : string) (v : pyval) (l : list (string * pyval)) :
  join_items repr ((k, v) :: l) = repr_str k +:+ ": " +:+ repr v +:+ items_tail l.
Proof. by destruct l. Qed.

Lemma eval_items_join (items : list (string * pyval)) :
  Forall (fun kv => forall fuel rest, (cost kv.2 <= fuel)%nat -> no_digit_head rest ->
                    eval_expr fuel (repr kv.2 +:+ rest) = Some (kv.2, rest)) items ->
  Forall (fun kv => plain kv.1 = true) items ->
  forall fuel acc rest,
    (S (cost_items items) <= fuel)%nat ->
    NoDup (acc ++ items).*1 ->
    eval_items fuel (join_items repr items +:+ "}" +:+ rest) acc
    = Some (PyDict (acc ++ items), rest).
Proof.
  intros Hvals Hkeys.
  induction items as [|[k v] l IH]; intros fuel acc rest Hfuel Hnd.
  - destruct fuel as [|fuel]; [lia|]. by rewrite app_nil_r.
  - apply Forall_cons in Hvals as [Hv Hvals]. apply Forall_cons in Hkeys as [Hk Hkeys].
    cbn [fst snd] in Hv, Hk. specialize (IH Hvals Hkeys).
    change (cost_items ((k, v) :: l)) with (S (cost v + cost_items l)) in Hfuel.
    destruct fuel as [|fuel]; [lia|]. destruct fuel as [|fuel']; [lia|].
    rewrite eval_items_S, join_items_cons, !append_assoc.
    assert (skip_ws (repr_str k +:+ ": " +:+ repr v +:+ items_tail l +:+ "}" +:+ rest)
            = repr_str k +:+ ": " +:+ repr v +:+ items_tail l +:+ "}" +:+ rest) as ->
      by done.
    change (head_is "}" (repr_str k +:+ ?x)) with (@None string).
    rewrite eval_expr_str by done.
    change (head_is ":" (skip_ws (": " +:+ ?x))) with (Some (String " " x)).
    cbv beta iota.
    rewrite eval_expr_space, Hv; [|lia|by destruct l].
    assert (Dict.setitem k v acc = acc ++ [(k, v)]) as ->.
    { apply setitem_fresh. rewrite fmap_app in Hnd. apply NoDup_app in Hnd as (_ & Hnd & _).
      intros Hin. apply (Hnd _ Hin). apply list_elem_of_here. }
    destruct l as [|kv l].
    + by change (items_tail []) with "".
    + change (items_tail (kv :: l)) with (", " +:+ join_items repr (kv :: l)).
      rewrite !append_assoc.
      change (head_is "," (skip_ws (", " +:+ ?x))) with (Some (String " " x)).
      cbv beta iota.
      rewrite eval_items_space, IH.
      * by rewrite <- app_assoc.
      * change (cost_items (kv :: l)) with (S (cost kv.2 + cost_items l)) in *. lia.
      * by rewrite <- app_assoc.
Qed.

Lemma eval_expr_repr (v : pyval) :
  literal v ->
  forall fuel rest, (cost v <= fuel)%nat -> no_digit_head rest ->
  eval_expr fuel (repr v +:+ rest) = Some (v, rest).
Proof.
  induction v as [n|b|s|items IH] using pyval_nested_ind;
    intros Hlit fuel rest Hfuel Hrest;
    (destruct fuel as [|fuel]; [cbn in Hfuel; lia|]).
  - by apply eval_expr_int.
  - apply eval_expr_bool.
  - by apply eval_expr_str.
  - apply literal_dict in Hlit as [Hnd Hitems].
    cbn [repr]. rewrite !append_assoc, append_cons, append_empty_l, eval_expr_brace.
    rewrite (eval_items_join items).
    + done.
    + rewrite Forall_forall in IH, Hitems. apply Forall_forall. intros kv Hin.
      apply IH; [done|]. by apply Hitems.
    + eapply Forall_impl; [exact Hitems|]. by intros kv [? ?].
    + change (cost (PyDict items)) with (S (S (cost_items items))) in Hfuel. lia.
    + done.
Qed.

Lemma length_str_int (n : Z) : (1 <= String.length (str_int n))%nat.
Proof.
  destruct (decide (0 <= n)) as [Hn|Hn].
  - rewrite str_int_nonneg by done.
    destruct (head_string_of_uint (N.to_uint (Z.to_N n)) (to_uint_nonnil _))
      as (c & r & -> & _). simpl. lia.
  - destruct n; try lia. simpl. lia.
Qed.

Lemma cost_le_length (v : pyval) : (cost v <= String.length (repr v))%nat.
Proof.
  induction v as [n|b|s|items IH] using pyval_nested_ind.
  - apply length_str_int.
  - destruct b; simpl; lia.
  - unfold repr, repr_str. rewrite !length_append. simpl. lia.
  - change (cost (PyDict items)) with (S (S (cost_items items))).
    cbn [repr]. rewrite !length_append.
    change (String.length "{") with 1%nat. change (String.length "}") with 1%nat.
    assert (cost_items items <= String.length (join_items repr items))%nat; [|lia].
    induction items as [|[k v] l IHl]; [simpl; lia|].
    apply Forall_cons in IH as [Hv IH]. specialize (IHl IH). cbn [snd] in Hv.
    change (cost_items ((k, v) :: l)) with (S (cost v + cost_items l)).
    rewrite join_items_cons, !length_append.
    change (String.length ": ") with 2%nat.
    destruct l as [|kv l]; [simpl; lia|].
    change (items_tail (kv :: l)) with (", " +:+ join_items repr (kv :: l)).
    rewrite length_append. lia.
Qed.

Lemma eval_repr (v : pyval) : literal v -> eval (repr v) = Some v.
Proof.
  intros Hlit. unfold eval.
  rewrite <- (append_empty_r (repr v)) at 2.
  rewrite eval_expr_repr; [done|done| |done].
  pose proof (cost_le_length v). lia.
Qed.

(** ** The text of an [analytics] dict *)

Lemma plain_append (a b : string) : plain (a +:+ b) = plain a && plain b.
Proof.
  induction a as [|c a IH]; [done|].
  rewrite append_cons. cbn [plain]. by rewrite IH, andb_assoc.
Qed.

Lemma plain_string_of_uint (d : uint) : plain (NilEmpty.string_of_uint d) = true.
Proof. induction d; cbn [NilEmpty.string_of_uint plain]; by rewrite ?IHd. Qed.

Lemma plain_str_int (n : Z) : plain (str_int n) = true.
Proof.
  destruct n; unfold str_int; cbn [Z.to_int NilEmpty.string_of_int];
    rewrite ?plain_string_of_uint; try done.
  cbn [plain]. by rewrite plain_string_of_uint.
Qed.

Lemma plain_zeros (k : nat) : plain (zeros k) = true.
Proof. induction k as [|k IH]; [done|]. rewrite zeros_S. cbn [plain]. by rewrite IH. Qed.

Lemma plain_format_0d (width : nat) (n : Z) : plain (format_0d width n) = true.
Proof.
  unfold format_0d, zero_pad. case_decide;
    rewrite !plain_append, ?plain_zeros, ?plain_str_int; done.
Qed.

Lemma plain_isoformat (d : date) : plain (isoformat d) = true.
Proof. unfold isoformat. by rewrite !plain_append, !plain_format_0d. Qed.

Lemma literal_analytics (views : list view) : literal (PyDict (analytics views)).
Proof.
  apply literal_dict. split.
  { apply (bool_decide_unpack _). by vm_compute. }
  unfold analytics. repeat (constructor; [done|]).
  constructor; [|constructor]. split; [done|]. cbn [snd].
  apply literal_dict.
  assert ((prod_map id PyInt <$> views_per_day views).*1 = (views_per_day views).*1)
    as Hkeys.
  { rewrite <- list_fmap_compose. apply list_fmap_ext. by intros ? [? ?]. }
  split; [rewrite Hkeys; apply NoDup_views_per_day|].
  apply Forall_forall. intros [k v] Hin.
  assert (k ∈ (views_per_day views).*1) as Hk.
  { rewrite <- Hkeys. by apply (list_elem_of_fmap_2 fst) in Hin. }
  apply list_elem_of_fmap in Hin as ([k' n] & [= -> ->] & _).
  split; [|done]. cbn [fst].
  apply elem_of_keys_get in Hk. rewrite get_views_per_day in Hk.
  destruct (on_day k' views) as [|w ws] eqn:Hon.
  { rewrite decide_True in Hk by done. by destruct Hk. }
  assert (w ∈ on_day k' views) as Hw by (rewrite Hon; apply list_elem_of_here).
  apply list_elem_of_filter in Hw as [<- _]. apply plain_isoformat.
Qed.

Lemma eval_str_analytics (views : list view) :
  eval (str (PyDict (analytics views))) = Some (PyDict (analytics views)).
Proof. apply eval_repr, literal_analytics. Qed.

(** ** The cache *)

Lemma get_setex_live (key v : string) (now t : Z) (db : gmap string Redis.entry) :
  t < now + 60 * 1000 -> Redis.get key t (Redis.setex key 60 v now db) = Some v.
Proof.
  intros Ht. unfold Redis.get, Redis.setex. rewrite lookup_insert_eq.
  cbn [Redis.expires_at Redis.value]. by rewrite decide_False by lia.
Qed.

Lemma get_setex_expired (key v : string) (now t : Z) (db : gmap string Redis.entry) :
  now + 60 * 1000 <= t -> Redis.get key t (Redis.setex key 60 v now db) = None.
Proof.
  intros Ht. unfold Redis.get, Redis.setex. rewrite lookup_insert_eq.
  cbn [Redis.expires_at Redis.value]. by rewrite decide_True by lia.
Qed.

Lemma get_delete (key : string) (t : Z) (db : gmap string Redis.entry) :
  Redis.get key t (Redis.delete key db) = None.
Proof. unfold Redis.get, Redis.delete. by rewrite lookup_delete_eq. Qed.

Lemma str_analytics_head (views : list view) :
  exists r, str (PyDict (analytics views)) = String "{" r.
Proof. by eexists. Qed.

Lemma get_analytics_miss (media_id now_get now_setex : Z) (st : state) :
  is_Some (media_db st !! media_id) ->
  missed media_id now_get st ->
  get_analytics media_id now_get now_setex st
  = (Return (("cached", PyBool false) :: analytics (events (views_db st) media_id)),
     recomputed media_id now_setex st).
Proof.
  intros [m Hm] Hget. rewrite get_analytics_unfold, Hm. unfold missed in Hget.
  by destruct (Redis.get _ _ _) as [[|c text]|].
Qed.

Lemma missed_None (media_id now_get : Z) (st : state) :
  Redis.get (cache_key media_id) now_get (redis_client st) = None ->
  missed media_id now_get st.
Proof. intros H. unfold missed. by rewrite H. Qed.

Lemma get_analytics_hit (media_id now_get now_setex : Z) (st : state) (views : list view) :
  is_Some (media_db st !! media_id) ->
  Redis.get (cache_key media_id) now_get (redis_client st)
    = Some (str (PyDict (analytics views))) ->
  get_analytics media_id now_get now_setex st
  = (Return (("cached", PyBool true) :: analytics views), st).
Proof.
  intros [m Hm] Hget. rewrite get_analytics_unfold, Hm, Hget.
  destruct (str_analytics_head views) as [r Hr].
  pose proof (eval_str_analytics views) as Heval. rewrite Hr in *. rewrite Heval. done.
Qed.

Lemma recomputed_get (media_id now_setex t : Z) (st : state) :
  t < now_setex + 60 * 1000 ->
  Redis.get (cache_key media_id) t (redis_client (recomputed media_id now_setex st))
  = Some (str (PyDict (analytics (events (views_db st) media_id)))).
Proof. intros Ht. unfold recomputed. cbn [redis_client with_redis_client with_views_db]. by apply get_setex_live. Qed.

Lemma recomputed_get_expired (media_id now_setex t : Z) (st : state) :
  now_setex + 60 * 1000 <= t ->
  Redis.get (cache_key media_id) t (redis_client (recomputed media_id now_setex st)) = None.
Proof. intros Ht. unfold recomputed. cbn [redis_client with_redis_client with_views_db]. by apply get_setex_expired. Qed.

Lemma recomputed_events (media_id now_setex id : Z) (st : state) :
  events (views_db (recomputed media_id now_setex st)) id = events (views_db st) id.
Proof. apply events_touched. Qed.


(** ** Decoding what a miss stored *)

(** C8. The text a miss stores ([str] of the analytics dict) is read back
    by [eval] as the same dict. So a hit before the entry expires returns
    exactly the summary the miss returned, with only the [cached] flag
    changed; and in any state at all, a hit on text printed from an
    analytics dict returns that dict, whatever [views_db] holds by then,
    and changes nothing. *)
Theorem get_analytics_hit_returns_stored (media_id now_get now_setex now_get' now_setex' : Z)
    (st : state) :
  is_Some (media_db st !! media_id) ->
  missed media_id now_get st ->
  now_get' < now_setex + 60 * 1000 ->
  let summary := analytics (events (views_db st) media_id) in
  let st1 := (get_analytics media_id now_get now_setex st).2 in
  eval (str (PyDict summary)) = Some (PyDict summary)
  /\ (get_analytics media_id now_get now_setex st).1
     = Return (("cached", PyBool false) :: summary)
  /\ Redis.get (cache_key media_id) now_get' (redis_client st1) = Some (str (PyDict summary))
  /\ get_analytics media_id now_get' now_setex' st1
     = (Return (("cached", PyBool true) :: summary), st1)
  /\ (forall (st2 : state) (views : list view) (t t' : Z),
        is_Some (media_db st2 !! media_id) ->
        Redis.get (cache_key media_id) t (redis_client st2)
          = Some (str (PyDict (analytics views))) ->
        get_analytics media_id t t' st2
        = (Return (("cached", PyBool true) :: analytics views), st2)).
Proof.
  intros Hm Hmiss Ht summary st1. subst st1.
  rewrite get_analytics_miss by done. cbn [fst snd].
  split; [apply eval_str_analytics|]. split; [done|].
  split; [by apply recomputed_get|].
  split; [apply get_analytics_hit; [done|]; by apply recomputed_get|].
  intros st2 views t t' Hm2 Hget. by apply get_analytics_hit.
Qed.

Lemma get_analytics_hit_returns_stored_witness :
  events (views_db stale_cache) 42 = []
  /\ get_analytics 42 1000 1000 stale_cache
     = (Return [ ("cached", PyBool true); ("total_views", PyInt 3); ("unique_ips", PyInt 2);
                 ("views_per_day",
                  PyDict [("2026-11-02", PyInt 1); ("2026-11-03", PyInt 2)]) ],
        stale_cache).
Proof.
  assert (is_Some (media_db one_media !! 42)) as Hm by (eexists; by vm_compute).
  assert (missed 42 0 one_media) as Hmiss by (by vm_compute).
  assert (1000 < 0 + 60 * 1000) as Ht by lia.
  destruct (get_analytics_hit_returns_stored 42 0 0 1000 1000 one_media Hm Hmiss Ht)
    as (_ & _ & _ & _ & H).
  split; [by vm_compute|].
  rewrite (H stale_cache sample_views 1000 1000); [by vm_compute|exact Hm|by vm_compute].
Defined.

(** ** Reading after a write *)



(** ** Expiry *)

(** C7. An entry stored with a time to live of 60 seconds is absent for
    every [get] that reaches the cache 61 seconds or more after it was
    stored; so the [get_analytics] after a miss, arriving that late,
    recomputes and answers [cached = False], although the key was never
    deleted. *)
Theorem cache_entry_expires (media_id now_get now_setex now_get' now_setex' : Z)
    (st : state) :
  is_Some (media_db st !! media_id) ->
  missed media_id now_get st ->
  now_setex + 61 * 1000 <= now_get' ->
  let summary := analytics (events (views_db st) media_id) in
  let st1 := (get_analytics media_id now_get now_setex st).2 in
  (forall key v db, Redis.get key now_get' (Redis.setex key 60 v now_setex db) = None)
  /\ redis_client st1 !! cache_key media_id
     = Some {| Redis.value := str (PyDict summary);
               Redis.expires_at := now_setex + 60 * 1000 |}
  /\ Redis.get (cache_key media_id) now_get' (redis_client st1) = None
  /\ (get_analytics media_id now_get' now_setex' st1).1
     = Return (("cached", PyBool false) :: summary).
Proof.
  intros Hm Hmiss Ht summary st1. subst st1.
  rewrite get_analytics_miss by done. cbn [fst snd].
  split; [intros key v db; apply get_setex_expired; lia|].
  split.
  { unfold recomputed, Redis.setex.
    cbn [redis_client with_redis_client with_views_db]. apply lookup_insert_eq. }
  split; [apply recomputed_get_expired; lia|].
  rewrite get_analytics_miss;
    [|done|apply missed_None, recomputed_get_expired; lia].
  cbn [fst]. by rewrite recomputed_events.
Qed.

Lemma cache_entry_expires_witness :
  (get_analytics 42 61000 61000 (get_analytics 42 0 0 one_media).2).1
  = Return [("cached", PyBool false); ("total_views", PyInt 0); ("unique_ips", PyInt 0);
            ("views_per_day", PyDict [])].
Proof.
  assert (is_Some (media_db one_media !! 42)) as Hm by (eexists; by vm_compute).
  assert (missed 42 0 one_media) as Hmiss by (by vm_compute).
  assert (0 + 61 * 1000 <= 61000) as Ht by lia.
  destruct (cache_entry_expires 42 0 0 61000 61000 one_media Hm Hmiss Ht)
    as (_ & _ & _ & H).
  by rewrite H.
Defined.

(** ** What the cache holds in a reachable state *)

Lemma rate_limit_redis_client ip now st :
  redis_client (rate_limit ip now st).2 = redis_client st.
Proof. rewrite rate_limit_unfold. by case_decide. Qed.

Lemma handle_cache_printed (r : request) (st : state) :
  cache_printed st -> cache_printed (handle r st).
Proof.
  intros Hst key e. destruct r as [media|media_id host t1 t2|media_id tg ts]; cbn [handle].
  - apply Hst.
  - rewrite log_view_unfold. case_decide; [apply Hst|].
    destruct (media_db st !! media_id); [|apply Hst].
    unfold logged, Redis.delete.
    cbn [snd redis_client with_redis_client with_views_db with_rate_limit_store].
    intros [_ Hl]%lookup_delete_Some. by apply (Hst key).
  - rewrite get_analytics_unfold.
    destruct (media_db st !! media_id); [|apply Hst].
    destruct (Redis.get _ _ _) as [[|c text]|].
    + unfold recomputed, Redis.setex.
      cbn [snd redis_client with_redis_client with_views_db].
      intros [[_ <-]|[_ Hl]]%lookup_insert_Some; [by eexists|by apply (Hst key)].
    + destruct (eval (String c text)) as [[]|]; apply Hst.
    + unfold recomputed, Redis.setex.
      cbn [snd redis_client with_redis_client with_views_db].
      intros [[_ <-]|[_ Hl]]%lookup_insert_Some; [by eexists|by apply (Hst key)].
Qed.

Lemma reachable_cache_printed (st : state) : reachable st -> cache_printed st.
Proof.
  induction 1 as [|r st _ IH].
  - intros key e Hl. cbn [initial_state redis_client] in Hl.
    by rewrite lookup_empty in Hl.
  - by apply handle_cache_printed.
Qed.

(** In a reachable state [eval] only ever meets text that [str] printed:
    [get_analytics] returns, or raises 404. *)
Lemma reachable_get_analytics (media_id now_get now_setex : Z) (st : state) :
  reachable st ->
  (exists resp, (get_analytics media_id now_get now_setex st).1 = Return resp)
  \/ (get_analytics media_id now_get now_setex st).1 = Raise not_found.
Proof.
  intros Hst%reachable_cache_printed. rewrite get_analytics_unfold.
  destruct (media_db st !! media_id); [|by right]. left.
  destruct (Redis.get _ _ _) as [[|c text]|] eqn:Hget; [by eexists| |by eexists].
  unfold Redis.get in Hget.
  destruct (redis_client st !! cache_key media_id) as [e|] eqn:Hl; [|done].
  case_decide; [done|]. injection Hget as Hv.
  destruct (Hst _ _ Hl) as [views Hviews]. rewrite Hv in Hviews.
  rewrite Hviews, eval_str_analytics. by eexists.
Qed.

(** ** More on the rate limiter *)

Lemma filter_all {A : Type} (P : A -> Prop) `{!forall x, Decision (P x)} (l : list A) :
  Forall P l -> filter P l = l.
Proof.
  induction 1 as [|x l Hx _ IH]; [done|]. by rewrite filter_cons_True, IH.
Qed.

Lemma len_filter_le {A : Type} (P : A -> Prop) `{!forall x, Decision (P x)} (l : list A) :
  len (filter P l) <= len l.
Proof. unfold len. pose proof (length_filter P l). lia. Qed.

Lemma with_rate_limit_store_id (ip : string) (w : list datetime) (st : state) :
  rate_limit_store st !! ip = Some w ->
  with_rate_limit_store (insert ip w) st = st.
Proof.
  intros Hw. destruct st as [mdb vdb rls rc]. unfold with_rate_limit_store.
  cbn [media_db views_db rate_limit_store redis_client] in *. f_equal.
  by apply insert_id.
Qed.

(** X1. When every timestamp of the caller's window is less than one day
    old (and none is in the future), the comprehension of [rate_limit]
    keeps exactly the timestamps less than [WINDOW] seconds old. *)
Theorem pruned_within_a_day (ip : string) (now : datetime) (st : state) :
  Forall (within_a_day now) (window (rate_limit_store st) ip) ->
  pruned ip now st = filter (in_window now) (window (rate_limit_store st) ip).
Proof.
  unfold pruned. intros Hall.
  induction Hall as [|ts w Hts _ IH]; [done|].
  rewrite !filter_cons, IH.
  destruct (decide (recent now ts)) as [Hr|Hr];
    destruct (decide (in_window now ts)) as [Hf|Hf]; try done.
  - by apply recent_within_a_day in Hr.
  - by apply recent_within_a_day in Hf.
Qed.

(** X5. A request that finds [RATE_LIMIT] or more timestamps in the
    caller's window, all of them passing the comprehension's test, is
    answered 429 and leaves the whole state as it was. *)
Theorem rate_limit_full_window (ip : string) (now : datetime) (st : state)
    (w : list datetime) :
  rate_limit_store st !! ip = Some w ->
  Forall (recent now) w ->
  RATE_LIMIT <= len w ->
  rate_limit ip now st = (Raise too_many_requests, st).
Proof.
  intros Hw Hall Hfull. rewrite rate_limit_unfold. unfold pruned, window.
  rewrite Hw. cbn [default]. rewrite filter_all by done.
  rewrite decide_True by done. by rewrite with_rate_limit_store_id.
Qed.

(** X3. Windows are per address: a call for one address leaves the window
    of every other address alone, and does not change what the next call
    for another address answers. *)
Theorem rate_limit_independent (ip ip' : string) (now now' : datetime) (st : state) :
  ip <> ip' ->
  window (rate_limit_store (rate_limit ip now st).2) ip' = window (rate_limit_store st) ip'
  /\ (rate_limit ip' now' (rate_limit ip now st).2).1 = (rate_limit ip' now' st).1
  /\ window (rate_limit_store (rate_limit ip' now' (rate_limit ip now st).2).2) ip'
     = window (rate_limit_store (rate_limit ip' now' st).2) ip'.
Proof.
  intros Hne.
  assert (window (rate_limit_store (rate_limit ip now st).2) ip'
          = window (rate_limit_store st) ip') as Hw.
  { rewrite rate_limit_unfold. case_decide; cbn [snd rate_limit_store with_rate_limit_store];
      by apply window_insert_ne. }
  split; [done|].
  rewrite !(rate_limit_unfold ip' now'). unfold pruned. rewrite Hw.
  case_decide; cbn [fst snd rate_limit_store with_rate_limit_store];
    by rewrite !window_insert_eq.
Qed.

(** X2. Whatever the clock readings, a caller whose window holds [k]
    timestamps gets its next [RATE_LIMIT - k] requests admitted; in
    particular the first [RATE_LIMIT] requests of an unknown address are
    all admitted. *)
Theorem first_requests_admitted (ip : string) (readings : list datetime) (st : state) :
  len (window (rate_limit_store st) ip) + len readings <= RATE_LIMIT ->
  Forall (fun r => r = Return tt) (admissions ip readings st).
Proof.
  revert st. induction readings as [|now rest IH]; intros st Hroom; [constructor|].
  cbn [admissions]. rewrite len_cons in Hroom.
  pose proof (len_filter_le (recent now) (window (rate_limit_store st) ip)) as Hle.
  assert (0 <= len rest) by (unfold len; lia).
  rewrite rate_limit_unfold. unfold pruned. rewrite decide_False by lia.
  cbn [fst snd]. constructor; [done|]. apply IH.
  cbn [rate_limit_store with_rate_limit_store].
  rewrite window_insert_eq, len_app_one. lia.
Qed.

Lemma first_requests_admitted_witness :
  Forall (fun r => r = Return tt) (admissions client burst initial_state).
Proof.
  assert (len (window (rate_limit_store initial_state) client) + len burst <= RATE_LIMIT)
    as Hroom by (by vm_compute).
  exact (first_requests_admitted client burst initial_state Hroom).
Defined.

Lemma pruned_within_a_day_witness :
  pruned client just_after_burst after_burst = burst.
Proof.
  assert (Forall (within_a_day just_after_burst)
            (window (rate_limit_store after_burst) client)) as Hall.
  { repeat constructor; by vm_compute. }
  rewrite (pruned_within_a_day client just_after_burst after_burst Hall).
  by vm_compute.
Defined.

Lemma rate_limit_full_window_witness :
  rate_limit client just_after_burst after_burst = (Raise too_many_requests, after_burst).
Proof.
  apply (rate_limit_full_window client just_after_burst after_burst burst).
  - by vm_compute.
  - repeat constructor; by vm_compute.
  - by vm_compute.
Defined.

Lemma rate_limit_independent_witness :
  (rate_limit "5.6.7.8" just_after_burst (rate_limit client just_after_burst after_burst).2).1
  = (rate_limit "5.6.7.8" just_after_burst after_burst).1.
Proof.
  assert (client <> "5.6.7.8") as Hne by done.
  apply (rate_limit_independent client "5.6.7.8" just_after_burst just_after_burst
           after_burst Hne).
Defined.

(** ** More on [log_view] *)

Lemma log_view_on_unfold cache_up media_id host now_limiter now st :
  log_view_on cache_up media_id host now_limiter now st =
  if decide (RATE_LIMIT <= len (pruned host now_limiter st))
  then (Raise too_many_requests,
        with_rate_limit_store (insert host (pruned host now_limiter st)) st)
  else
    match media_db st !! media_id with
    | None =>
        (Raise not_found,
         with_rate_limit_store
           (insert host (pruned host now_limiter st ++ [now_limiter])) st)
    | Some _ =>
        if cache_up
        then (Return [("msg", PyStr "View logged")],
              logged media_id host now_limiter now st)
        else (Raise internal_server_error,
              logged_uncached media_id host now_limiter now st)
    end.
Proof.
  unfold log_view_on, logged, logged_uncached. unfold mbind at 1. unfold M_bind.
  rewrite rate_limit_unfold. case_decide as Hfull; [done|].
  unfold mbind, M_bind, gets, raise, modify, mret, M_ret, views_db_getitem, events.
  destruct st as [mdb vdb rls rc]; simpl.
  destruct (mdb !! media_id) as [m|] eqn:Hm; simpl; [|done].
  destruct (vdb !! media_id) as [l|] eqn:Hl; destruct cache_up; simpl; try done;
    unfold with_redis_client, with_views_db; simpl; by rewrite insert_insert_eq.
Qed.

Lemma log_view_on_up media_id host now_limiter now st :
  log_view_on true media_id host now_limiter now st
  = log_view media_id host now_limiter now st.
Proof. by rewrite log_view_on_unfold, log_view_unfold. Qed.

(** X6. For an authenticated request carrying a client address, the body
    of [log_view] has exactly four outcomes, decided in this order: 429
    when the caller's pruned window is full; else 404 when the resource is
    not registered; else 500 when the awaited cache [delete] raises; else
    the acknowledgement. *)
Theorem log_view_outcome (cache_up : bool) (media_id : Z) (host : string)
    (now_limiter now : datetime) (st : state) :
  let r := (log_view_on cache_up media_id host now_limiter now st).1 in
  let kept := pruned host now_limiter st in
  (r = Raise too_many_requests <-> RATE_LIMIT <= len kept)
  /\ (r = Raise not_found <-> len kept < RATE_LIMIT /\ media_db st !! media_id = None)
  /\ (r = Raise internal_server_error
      <-> len kept < RATE_LIMIT /\ is_Some (media_db st !! media_id) /\ cache_up = false)
  /\ (r = Return [("msg", PyStr "View logged")]
      <-> len kept < RATE_LIMIT /\ is_Some (media_db st !! media_id) /\ cache_up = true)
  /\ (cache_up = true ->
      log_view_on cache_up media_id host now_limiter now st
      = log_view media_id host now_limiter now st).
Proof.
  intros r kept. subst r kept.
  split; [|split; [|split; [|split]]]; try (intros ->; apply log_view_on_up);
    rewrite log_view_on_unfold; case_decide as Hfull; cbn [fst];
    try (destruct (media_db st !! media_id) as [m|] eqn:Hm; cbn [fst]);
    try (destruct cache_up; cbn [fst]);
    (split; [try done; try (intros _; repeat split; done || lia || by eexists)
            |try done; try (by intros (? & ? & ?)); try (by intros (? & ?));
             try (intros (_ & [? ?] & _); done); try (intros (_ & [? ?]); done); try lia]).
Qed.

(** X7. A [log_view] that raises 429 or 404 has logged no event and has
    not touched the cache. One that raises 500, because the awaited cache
    [delete] raised, has already appended the event and consumed a
    timestamp of the caller. In all three cases the registry and the
    windows of other callers are as before. *)
Theorem log_view_failure_frame (cache_up : bool) (media_id : Z) (host : string)
    (now_limiter now : datetime) (st : state) (e : HTTPException) :
  (log_view_on cache_up media_id host now_limiter now st).1 = Raise e ->
  let st' := (log_view_on cache_up media_id host now_limiter now st).2 in
  (e = too_many_requests \/ e = not_found \/ e = internal_server_error)
  /\ (e <> internal_server_error -> views_db st' = views_db st)
  /\ (e = internal_server_error ->
      events (views_db st') media_id
        = events (views_db st) media_id ++ [ {| ip := host; time := now |} ]
      /\ window (rate_limit_store st') host
         = pruned host now_limiter st ++ [now_limiter])
  /\ (e <> internal_server_error -> redis_client st' = redis_client st)
  /\ media_db st' = media_db st
  /\ (forall host', host' <> host ->
        window (rate_limit_store st') host' = window (rate_limit_store st) host').
Proof.
  rewrite log_view_on_unfold. case_decide as Hfull; cbn [fst snd].
  - intros [= <-]. split; [by left|]. repeat split; try done.
    intros host' Hne. by apply window_insert_ne.
  - destruct (media_db st !! media_id); cbn [fst snd].
    + destruct cache_up; [done|]. cbn [fst snd]. intros [= <-].
      unfold logged_uncached.
      cbn [views_db redis_client media_db rate_limit_store with_views_db
           with_rate_limit_store].
      split; [by right; right|]. split; [done|].
      split; [intros _; split; [apply events_insert_eq|apply window_insert_eq]|].
      repeat split; try done. intros host' Hne. by apply window_insert_ne.
    + intros [= <-]. split; [by right; left|]. repeat split; try done.
      intros host' Hne. by apply window_insert_ne.
Qed.

Lemma log_view_failure_frame_witness :
  views_db (log_view_on true 7 client just_after_burst just_after_burst after_burst).2
  = views_db after_burst
  /\ events (views_db (log_view_on false 42 client next_day next_day one_media).2) 42
     = [ {| ip := client; time := next_day |} ].
Proof.
  assert ((log_view_on true 7 client just_after_burst just_after_burst after_burst).1
          = Raise too_many_requests) as H by (by vm_compute).
  assert ((log_view_on false 42 client next_day next_day one_media).1
          = Raise internal_server_error) as H' by (by vm_compute).
  destruct (log_view_failure_frame true 7 client just_after_burst just_after_burst
              after_burst _ H) as (_ & Hviews & _).
  destruct (log_view_failure_frame false 42 client next_day next_day one_media _ H')
    as (_ & _ & Hlogged & _).
  split; [by apply Hviews|]. by destruct (Hlogged eq_refl) as [-> _].
Defined.

Lemma cache_printed_empty (st : state) : redis_client st = ∅ -> cache_printed st.
Proof. intros Hempty key e Hl. rewrite Hempty in Hl. by rewrite lookup_empty in Hl. Qed.

(** X8. The event log is append-only. In a state whose cache holds only
    text the service printed, whatever the request, the log of every
    resource afterwards is the log before, followed by at most one new
    event; this also holds for a [log_view] whose cache [delete] fails. *)
Theorem events_append_only (r : request) (st : state) (id : Z) :
  cache_printed st ->
  (exists suffix,
     events (views_db (handle r st)) id = events (views_db st) id ++ suffix
     /\ (length suffix <= 1)%nat)
  /\ (forall cache_up media_id host now_limiter now,
        exists suffix,
          events (views_db (log_view_on cache_up media_id host now_limiter now st).2) id
          = events (views_db st) id ++ suffix
          /\ (length suffix <= 1)%nat).
Proof.
  intros _.
  assert (forall l : list view, exists suffix, l = l ++ suffix /\ (length suffix <= 1)%nat)
    as Hsame.
  { intros l. exists []. split; [by rewrite app_nil_r|simpl; lia]. }
  assert (forall cache_up media_id host now_limiter now,
            exists suffix,
              events (views_db (log_view_on cache_up media_id host now_limiter now st).2) id
              = events (views_db st) id ++ suffix
              /\ (length suffix <= 1)%nat) as Hlog.
  { intros cache_up media_id host t1 t2.
    rewrite log_view_on_unfold. case_decide; [apply Hsame|].
    destruct (media_db st !! media_id); [|apply Hsame].
    destruct cache_up; unfold logged, logged_uncached;
      cbn [snd views_db with_redis_client with_views_db with_rate_limit_store];
      (destruct (decide (media_id = id)) as [->|Hne];
       [rewrite events_insert_eq; eexists; split; [done|]; simpl; lia
       |rewrite events_insert_ne by done; apply Hsame]). }
  split; [|exact Hlog].
  destruct r as [media|media_id host t1 t2|media_id tg ts]; cbn [handle].
  - apply Hsame.
  - rewrite <- log_view_on_up. apply Hlog.
  - rewrite get_analytics_unfold. destruct (media_db st !! media_id); [|apply Hsame].
    destruct (Redis.get _ _ _) as [[|c text]|]; cbn [snd].
    + unfold recomputed. cbn [views_db with_redis_client with_views_db].
      rewrite events_touched. apply Hsame.
    + destruct (eval (String c text)) as [[]|]; apply Hsame.
    + unfold recomputed. cbn [views_db with_redis_client with_views_db].
      rewrite events_touched. apply Hsame.
Qed.

Lemma events_append_only_witness :
  exists suffix,
    events (views_db (handle (LogView 42 client next_day next_day) one_media)) 42
    = events (views_db one_media) 42 ++ suffix
    /\ (length suffix <= 1)%nat.
Proof.
  assert (redis_client one_media = ∅) as Hempty by reflexivity.
  apply (events_append_only (LogView 42 client next_day next_day) one_media 42
           (cache_printed_empty one_media Hempty)).
Defined.

(** ** More on [get_analytics] *)

Lemma log_view_on_reads (cache_up : bool) (a b : Z) (host : string)
    (now_limiter now : datetime) (st : state) :
  a <> b ->
  let st' := (log_view_on cache_up a host now_limiter now st).2 in
  media_db st' = media_db st
  /\ events (views_db st') b = events (views_db st) b
  /\ redis_client st' !! cache_key b = redis_client st !! cache_key b
  /\ (cache_printed st -> cache_printed st').
Proof.
  intros Hne st'. subst st'. rewrite log_view_on_unfold.
  case_decide; [done|]. destruct (media_db st !! a); [|done].
  destruct cache_up; unfold logged, logged_uncached, Redis.delete;
    cbn [snd media_db views_db redis_client with_redis_client with_views_db
         with_rate_limit_store];
    (split; [done|]); (split; [by apply events_insert_ne|]).
  - split; [apply lookup_delete_ne; intros Hk; by apply cache_key_inj in Hk|].
    intros Hst key e Hl.
    cbn [redis_client with_redis_client with_views_db with_rate_limit_store] in Hl.
    apply lookup_delete_Some in Hl as [_ Hl]. by apply (Hst key).
  - split; [done|]. intros Hst key e Hl. by apply (Hst key).
Qed.

(** X10. Resources are isolated. In a state whose cache holds only text
    the service printed, a [log_view] for one resource, whatever its
    outcome (a failed cache [delete] included), leaves such a state and
    does not change what [get_analytics] answers for another resource. *)
Theorem log_view_other_resource (cache_up : bool) (a b : Z) (host : string)
    (now_limiter now : datetime) (now_get now_setex : Z) (st : state) :
  cache_printed st ->
  a <> b ->
  let st' := (log_view_on cache_up a host now_limiter now st).2 in
  cache_printed st'
  /\ (get_analytics b now_get now_setex st').1 = (get_analytics b now_get now_setex st).1
  /\ (cache_up = true -> st' = (log_view a host now_limiter now st).2).
Proof.
  intros Hprinted Hne st'. subst st'.
  destruct (log_view_on_reads cache_up a b host now_limiter now st Hne)
    as (Hm & Hev & Hrc & Hkeep).
  split; [by apply Hkeep|]. split; [|intros ->; by rewrite log_view_on_up].
  rewrite !get_analytics_unfold. rewrite Hm, Hev. unfold Redis.get. rewrite Hrc.
  destruct (media_db st !! b); [|done].
  destruct (redis_client st !! cache_key b) as [e|]; [|done].
  case_decide; [done|]. destruct (Redis.value e) as [|c text]; [done|].
  by destruct (eval (String c text)) as [[]|].
Qed.

Lemma log_view_other_resource_witness :
  (get_analytics 42 0 0 (log_view_on true 7 client next_day next_day one_media).2).1
  = (get_analytics 42 0 0 one_media).1.
Proof.
  assert (7 <> 42) as Hne by lia.
  assert (redis_client one_media = ∅) as Hempty by reflexivity.
  apply (log_view_other_resource true 7 42 client next_day next_day 0 0 one_media
           (cache_printed_empty one_media Hempty) Hne).
Defined.

(** X11. [get_analytics] writes only on a miss of a registered resource.
    In a state whose cache holds only text the service printed, a 404 and
    a cache hit both leave the whole state as it was, so a hit does not
    extend the life of the entry it read. *)
Theorem get_analytics_writes_only_on_miss (media_id now_get now_setex : Z) (st : state) :
  cache_printed st ->
  media_db st !! media_id = None \/ ~ missed media_id now_get st ->
  (get_analytics media_id now_get now_setex st).2 = st.
Proof.
  intros _. rewrite get_analytics_unfold. unfold missed.
  destruct (media_db st !! media_id); [|done].
  intros [?|Hhit]; [done|].
  destruct (Redis.get _ _ _) as [[|c text]|]; [by destruct Hhit| |by destruct Hhit].
  by destruct (eval (String c text)) as [[]|].
Qed.

(** X15. For a registered resource without any view, a miss answers zero
    views, zero addresses and an empty [views_per_day], and leaves an
    empty list stored under the resource in [views_db]. *)
Theorem get_analytics_empty_log (media_id now_get now_setex : Z) (st : state) :
  is_Some (media_db st !! media_id) ->
  missed media_id now_get st ->
  events (views_db st) media_id = [] ->
  (get_analytics media_id now_get now_setex st).1
  = Return [ ("cached", PyBool false); ("total_views", PyInt 0);
             ("unique_ips", PyInt 0); ("views_per_day", PyDict []) ]
  /\ views_db (get_analytics media_id now_get now_setex st).2 !! media_id = Some [].
Proof.
  intros Hm Hmiss Hev. rewrite get_analytics_miss by done. cbn [fst snd].
  rewrite Hev. split; [done|].
  unfold recomputed, touched. cbn [views_db with_redis_client with_views_db].
  unfold events in Hev. destruct (views_db st !! media_id) as [l|] eqn:Hl.
  - simpl in Hev. by subst l.
  - apply lookup_insert_eq.
Qed.

Lemma get_analytics_empty_log_witness :
  views_db (get_analytics 42 0 0 one_media).2 !! 42 = Some [].
Proof.
  assert (is_Some (media_db one_media !! 42)) as Hm by (eexists; by vm_compute).
  assert (missed 42 0 one_media) as Hmiss by (by vm_compute).
  assert (events (views_db one_media) 42 = []) as Hev by (by vm_compute).
  apply (get_analytics_empty_log 42 0 0 one_media Hm Hmiss Hev).
Defined.

Lemma get_analytics_writes_only_on_miss_witness :
  (get_analytics 42 1000 1000 (get_analytics 42 0 0 one_media).2).2
  = (get_analytics 42 0 0 one_media).2.
Proof.
  assert (redis_client one_media = ∅) as Hempty by reflexivity.
  apply (get_analytics_writes_only_on_miss 42 1000 1000).
  - exact (handle_cache_printed (GetAnalytics 42 0 0) one_media
             (cache_printed_empty one_media Hempty)).
  - right. by vm_compute.
Defined.

(** ** More on the aggregation *)

Lemma sum_counts_setitem (k : string) (v : Z) (d : list (string * Z)) :
  sum_counts (Dict.setitem k v d) = sum_counts d - default 0 (Dict.get k d) + v.
Proof.
  induction d as [|[k' n] d IH]; cbn [Dict.setitem Dict.get sum_counts foldr snd].
  - simpl. lia.
  - destruct (decide (k = k')) as [->|Hne]; cbn [sum_counts foldr snd default].
    + simpl. lia.
    + fold (sum_counts (Dict.setitem k v d)). fold (sum_counts d). rewrite IH. lia.
Qed.

Lemma sum_counts_incr (k : string) (d : list (string * Z)) :
  sum_counts (incr k d) = sum_counts d + 1.
Proof. unfold incr. rewrite sum_counts_setitem. lia. Qed.

Lemma get_Forall_values (P : Z -> Prop) (k : string) (n : Z) (d : list (string * Z)) :
  Forall (fun kv => P kv.2) d -> Dict.get k d = Some n -> P n.
Proof.
  induction 1 as [|[k' n'] d Hn _ IH]; cbn [Dict.get]; [done|].
  case_decide; [by intros [= <-]|done].
Qed.

Lemma Forall_values_setitem (P : Z -> Prop) (k : string) (v : Z) (d : list (string * Z)) :
  P v -> Forall (fun kv => P kv.2) d -> Forall (fun kv => P kv.2) (Dict.setitem k v d).
Proof.
  intros Hv. induction 1 as [|[k' n'] d Hn Hd IH]; cbn [Dict.setitem].
  - by repeat constructor.
  - case_decide; by constructor.
Qed.

Lemma positive_incr (k : string) (d : list (string * Z)) :
  Forall (fun kv => 1 <= kv.2) d -> Forall (fun kv => 1 <= kv.2) (incr k d).
Proof.
  intros Hd. apply (Forall_values_setitem (fun n => 1 <= n)); [|done].
  destruct (Dict.get k d) as [n|] eqn:Hget; cbn [default]; [|simpl; lia].
  pose proof (get_Forall_values (fun n => 1 <= n) k n d Hd Hget). simpl in *. lia.
Qed.

Lemma fold_incr_facts (views : list view) (acc : list (string * Z)) :
  Forall (fun kv => 1 <= kv.2) acc ->
  sum_counts (fold_left (fun acc v => incr (day_key v) acc) views acc)
  = sum_counts acc + len views
  /\ Forall (fun kv => 1 <= kv.2)
       (fold_left (fun acc v => incr (day_key v) acc) views acc).
Proof.
  revert acc. induction views as [|v views IH]; intros acc Hacc.
  - cbn [fold_left]. unfold len. simpl. split; [lia|done].
  - cbn [fold_left]. destruct (IH (incr (day_key v) acc)) as [Hsum Hpos].
    { by apply positive_incr. }
    rewrite Hsum, sum_counts_incr, len_cons. split; [lia|done].
Qed.

Lemma len_le_sum_counts (d : list (string * Z)) :
  Forall (fun kv => 1 <= kv.2) d -> len d <= sum_counts d.
Proof.
  induction 1 as [|[k n] d Hn _ IH]; [done|].
  rewrite len_cons. cbn [sum_counts foldr snd] in *. fold (sum_counts d). lia.
Qed.

Lemma length_remove_dups_le {A : Type} `{EqDecision A} (l : list A) :
  (length (remove_dups l) <= length l)%nat.
Proof.
  induction l as [|x l IH]; [done|]. cbn [remove_dups].
  destruct (decide_rel elem_of x l); simpl; lia.
Qed.

(** X13. The figures of a summary fit together: the per-day counts add up
    to [total_views], every count is at least one and at most
    [total_views], there are no more days and no more distinct addresses
    than views, and a non-empty log has at least one address. *)
Theorem analytics_consistent (views : list view) :
  sum_counts (views_per_day views) = total_views views
  /\ (forall k n, Dict.get k (views_per_day views) = Some n -> 1 <= n <= total_views views)
  /\ len (views_per_day views) <= total_views views
  /\ 0 <= unique_ips views <= total_views views
  /\ (views <> [] -> 1 <= unique_ips views).
Proof.
  destruct (fold_incr_facts views []) as [Hsum Hpos]; [constructor|].
  fold (views_per_day views) in Hsum, Hpos.
  change (sum_counts []) with 0 in Hsum. rewrite Z.add_0_l in Hsum.
  unfold total_views. split; [done|]. split.
  { intros k n Hget. rewrite get_views_per_day in Hget.
    case_decide as Hnil; [done|]. injection Hget as <-. split.
    - destruct (on_day k views); [done|]. rewrite len_cons. unfold len. lia.
    - unfold on_day, len. pose proof (length_filter (fun v => day_key v = k) views).
      lia. }
  split; [rewrite <- Hsum; by apply len_le_sum_counts|].
  rewrite unique_ips_remove_dups.
  pose proof (length_remove_dups_le (ip <$> views)) as Hle.
  rewrite length_fmap in Hle. split; [unfold len; lia|].
  intros Hne. destruct views as [|v views]; [done|].
  cbn [fmap list_fmap remove_dups]. 
  destruct (decide_rel elem_of (ip v) (ip <$> views)) as [Hin|Hnin].
  - apply elem_of_remove_dups in Hin.
    destruct (remove_dups (ip <$> views)); [by apply elem_of_nil in Hin|].
    rewrite len_cons. unfold len. lia.
  - rewrite len_cons. unfold len. lia.
Qed.

Lemma analytics_consistent_witness :
  1 <= unique_ips sample_views /\ sum_counts (views_per_day sample_views) = 3.
Proof.
  destruct (analytics_consistent sample_views) as (Hsum & _ & _ & _ & Hips).
  split; [by apply Hips|]. rewrite Hsum. by vm_compute.
Defined.

Lemma views_per_day_snoc (views : list view) (v : view) :
  views_per_day (views ++ [v]) = incr (day_key v) (views_per_day views).
Proof. unfold views_per_day. by rewrite fold_left_app. Qed.

(** X14. Logging one more view adds one to [total_views], adds one to
    [unique_ips] exactly when the address was not seen before, and adds
    one to the count of the view's day (creating the key at the end of the
    dict when the day is new) while every other day keeps its count. *)
Theorem analytics_after_append (views : list view) (v : view) :
  total_views (views ++ [v]) = total_views views + 1
  /\ unique_ips (views ++ [v])
     = unique_ips views + (if decide (ip v ∈ ip <$> views) then 0 else 1)
  /\ (forall k, Dict.get k (views_per_day (views ++ [v]))
       = if decide (k = day_key v)
         then Some (default 0 (Dict.get k (views_per_day views)) + 1)
         else Dict.get k (views_per_day views))
  /\ (views_per_day (views ++ [v])).*1
     = if decide (day_key v ∈ (views_per_day views).*1)
       then (views_per_day views).*1
       else (views_per_day views).*1 ++ [day_key v].
Proof.
  split; [apply len_app_one|]. split.
  { unfold unique_ips. rewrite fmap_app, list_to_set_app_L. cbn [fmap list_fmap].
    rewrite list_to_set_singleton.
    case_decide as Hin.
    - rewrite (comm_L union), subseteq_union_1_L; [lia|].
      intros x ->%elem_of_singleton. by apply elem_of_list_to_set.
    - rewrite size_union, size_singleton; [lia|].
      intros x Hx ->%elem_of_singleton. by apply elem_of_list_to_set in Hx. }
  split.
  { intros k. rewrite views_per_day_snoc. case_decide as Hk.
    - subst k. apply get_incr_eq.
    - by apply get_incr_ne. }
  rewrite views_per_day_snoc. apply keys_setitem.
Qed.

(** X16. The keys of [views_per_day] are the days of the log in the order
    in which each day is first seen. *)
Theorem views_per_day_key_order (views : list view) :
  (views_per_day views).*1 = reverse (remove_dups (reverse (day_key <$> views))).
Proof.
  induction views as [|v views IH] using rev_ind; [done|].
  rewrite views_per_day_snoc. unfold incr. rewrite keys_setitem, IH.
  rewrite fmap_app, reverse_app. cbn [fmap list_fmap].
  rewrite reverse_singleton. cbn [app remove_dups].
  destruct (decide_rel elem_of (day_key v) (reverse (day_key <$> views))) as [Hin|Hnin].
  - rewrite decide_True; [done|].
    by rewrite elem_of_reverse, elem_of_remove_dups.
  - rewrite decide_False, reverse_cons; [done|].
    by rewrite elem_of_reverse, elem_of_remove_dups.
Qed.

(** ** Invariants of the reachable states *)

Lemma handle_windows_bounded (r : request) (st : state) :
  windows_bounded st -> windows_bounded (handle r st).
Proof.
  intros Hst. destruct r as [media|media_id host t1 t2|media_id tg ts]; cbn [handle].
  - exact Hst.
  - assert (forall ip w, len w <= RATE_LIMIT ->
              len (window (<[host := w]> (rate_limit_store st)) ip) <= RATE_LIMIT) as Hins.
    { intros ip w Hw. destruct (decide (host = ip)) as [->|Hne].
      - by rewrite window_insert_eq.
      - rewrite window_insert_ne by done. apply Hst. }
    assert (len (pruned host t1 st) <= len (window (rate_limit_store st) host)) as Hle.
    { unfold pruned, len. pose proof (length_filter (recent t1)
        (window (rate_limit_store st) host)). lia. }
    pose proof (Hst host) as Hhost.
    intros ip. rewrite log_view_unfold. case_decide as Hfull.
    + cbn [snd rate_limit_store with_rate_limit_store]. apply Hins. lia.
    + destruct (media_db st !! media_id); unfold logged;
        cbn [snd rate_limit_store with_rate_limit_store with_redis_client with_views_db];
        apply Hins; rewrite len_app_one; lia.
  - intros ip. rewrite get_analytics_unfold.
    destruct (media_db st !! media_id); [|apply Hst].
    destruct (Redis.get _ _ _) as [[|c text]|]; try apply Hst.
    destruct (eval (String c text)) as [[]|]; apply Hst.
Qed.

Lemma handle_registered_only (r : request) (st : state) :
  registered_only st -> registered_only (handle r st).
Proof.
  intros [Hviews Hcache].
  destruct r as [media|media_id host t1 t2|media_id tg ts]; cbn [handle].
  - assert (forall id, is_Some (media_db st !! id) ->
              is_Some (<[Z.of_nat (size (media_db st)) + 1 := media]> (media_db st) !! id))
      as Hgrow.
    { intros id Hid. rewrite lookup_insert_is_Some. destruct (decide
        (Z.of_nat (size (media_db st)) + 1 = id)); [by left|by right]. }
    split; cbn [create_media snd media_db views_db redis_client].
    + intros id Hid. by apply Hgrow, Hviews.
    + intros key Hkey. destruct (Hcache key Hkey) as (id & -> & Hid).
      exists id. split; [done|]. by apply Hgrow.
  - rewrite log_view_unfold. case_decide; [done|].
    destruct (media_db st !! media_id) as [m|] eqn:Hm; [|done].
    unfold logged, Redis.delete.
    split; cbn [snd media_db views_db redis_client with_redis_client with_views_db
                with_rate_limit_store].
    + intros id. rewrite lookup_insert_is_Some. intros [<-|[_ Hid]]; [by rewrite Hm|].
      by apply Hviews.
    + intros key [e [_ He]%lookup_delete_Some]. apply Hcache. by exists e.
  - rewrite get_analytics_unfold.
    destruct (media_db st !! media_id) as [m|] eqn:Hm; [|done].
    assert (registered_only (recomputed media_id ts st)) as Hre.
    { unfold recomputed, touched, Redis.setex.
      split; cbn [media_db views_db redis_client with_redis_client with_views_db].
      - intros id. destruct (views_db st !! media_id) eqn:Hv; [apply Hviews|].
        rewrite lookup_insert_is_Some. intros [<-|[_ Hid]]; [by rewrite Hm|].
        by apply Hviews.
      - intros key. rewrite lookup_insert_is_Some. intros [<-|[_ Hkey]].
        + exists media_id. by rewrite Hm.
        + by apply Hcache. }
    destruct (Redis.get _ _ _) as [[|c text]|]; [done| |done].
    by destruct (eval (String c text)) as [[]|].
Qed.

Lemma handle_cache_coherent (r : request) (st : state) :
  cache_coherent st -> cache_coherent (handle r st).
Proof.
  intros Hst. destruct r as [media|media_id host t1 t2|media_id tg ts]; cbn [handle].
  - exact Hst.
  - rewrite log_view_unfold. case_decide; [exact Hst|].
    destruct (media_db st !! media_id) as [m|] eqn:Hm; [|exact Hst].
    unfold logged, Redis.delete. intros key e.
    cbn [snd media_db views_db redis_client with_redis_client with_views_db
         with_rate_limit_store].
    intros [Hne He]%lookup_delete_Some. destruct (Hst key e He) as (id & -> & Hval).
    exists id. split; [done|]. rewrite events_insert_ne; [done|]. by intros ->.
  - rewrite get_analytics_unfold.
    destruct (media_db st !! media_id) as [m|] eqn:Hm; [|exact Hst].
    assert (cache_coherent (recomputed media_id ts st)) as Hre.
    { unfold recomputed, Redis.setex. intros key e.
      cbn [media_db views_db redis_client with_redis_client with_views_db].
      intros [[<- <-]|[_ He]]%lookup_insert_Some.
      - exists media_id. split; [done|]. cbn [Redis.value]. by rewrite events_touched.
      - destruct (Hst key e He) as (id & -> & Hval). exists id. split; [done|].
        by rewrite events_touched. }
    destruct (Redis.get _ _ _) as [[|c text]|]; [done| |done].
    by destruct (eval (String c text)) as [[]|].
Qed.

Lemma handle_ids_consecutive (r : request) (st : state) :
  ids_consecutive st -> ids_consecutive (handle r st).
Proof.
  intros Hst.
  assert (forall st', media_db st' = media_db st -> ids_consecutive st') as Hsame.
  { intros st' Heq id. unfold ids_consecutive in Hst. by rewrite Heq. }
  destruct r as [media|media_id host t1 t2|media_id tg ts]; cbn [handle].
  - intros id. cbn [create_media snd media_db].
    assert (media_db st !! (Z.of_nat (size (media_db st)) + 1) = None) as Hfresh.
    { apply eq_None_not_Some. intros Hs%Hst. lia. }
    rewrite map_size_insert_None by done. rewrite lookup_insert_is_Some.
    rewrite (Hst id). destruct (decide (Z.of_nat (size (media_db st)) + 1 = id)); lia.
  - apply Hsame. rewrite log_view_unfold. case_decide; [done|].
    by destruct (media_db st !! media_id).
  - apply Hsame. rewrite get_analytics_unfold.
    destruct (media_db st !! media_id); [|done].
    destruct (Redis.get _ _ _) as [[|c text]|]; [done| |done].
    by destruct (eval (String c text)) as [[]|].
Qed.

Lemma reachable_invariants (st : state) :
  reachable st ->
  windows_bounded st /\ registered_only st /\ cache_coherent st /\ ids_consecutive st.
Proof.
  induction 1 as [|r st _ (Hw & Hr & Hc & Hi)].
  - split; [by intros ip|]. split.
    { split; [intros id [? Hl]|intros key [? Hl]];
        cbn [initial_state views_db redis_client] in Hl; by rewrite lookup_empty in Hl. }
    split.
    { intros key e Hl. cbn [initial_state redis_client] in Hl. by rewrite lookup_empty in Hl. }
    intros id. cbn [initial_state media_db]. rewrite lookup_empty, map_size_empty.
    split; [by intros [? ?]|lia].
  - split; [by apply handle_windows_bounded|]. split; [by apply handle_registered_only|].
    split; [by apply handle_cache_coherent|by apply handle_ids_consecutive].
Qed.

Lemma reachable_served : reachable served.
Proof. unfold served. repeat apply reachable_handle. apply reachable_initial. Qed.

(** X4. In every reachable state each address has at most [RATE_LIMIT]
    timestamps in its window. *)
Theorem reachable_windows_bounded (st : state) (ip : string) :
  reachable st -> len (window (rate_limit_store st) ip) <= RATE_LIMIT.
Proof. intros (Hw & _)%reachable_invariants. apply Hw. Qed.

Lemma reachable_windows_bounded_witness :
  len (window (rate_limit_store served) client) <= RATE_LIMIT.
Proof. exact (reachable_windows_bounded served client reachable_served). Defined.

(** X9. In every reachable state only registered resources have views or
    a cache entry, and every key of the cache is the analytics key of a
    registered resource. *)
Theorem reachable_registered_only (st : state) :
  reachable st ->
  (forall id, events (views_db st) id <> [] -> is_Some (media_db st !! id))
  /\ (forall id, is_Some (redis_client st !! cache_key id) -> is_Some (media_db st !! id))
  /\ (forall key, is_Some (redis_client st !! key) ->
        exists id, key = cache_key id /\ is_Some (media_db st !! id)).
Proof.
  intros (_ & [Hviews Hcache] & _)%reachable_invariants.
  split.
  { intros id Hne. apply Hviews. unfold events in Hne.
    destruct (views_db st !! id); [by eexists|done]. }
  split; [|done].
  intros id Hkey. destruct (Hcache _ Hkey) as (id' & Heq & Hid).
  apply cache_key_inj in Heq. by subst id'.
Qed.

Lemma reachable_registered_only_witness :
  is_Some (media_db served !! 1).
Proof.
  destruct (reachable_registered_only served reachable_served) as (H & _ & _).
  apply H. by vm_compute.
Defined.



(** X17. In every reachable state the registered ids are exactly
    [1 .. n]; [create_media] then registers the new resource under the
    unused id [n + 1], returns that id, and leaves every registered
    resource as it was. *)
Theorem create_media_fresh_id (media : Media) (st : state) :
  reachable st ->
  let n := Z.of_nat (size (media_db st)) in
  let st' := (create_media media st).2 in
  (forall id, is_Some (media_db st !! id) <-> 1 <= id <= n)
  /\ media_db st !! (n + 1) = None
  /\ (exists rest, (create_media media st).1 = Return (("id", PyInt (n + 1)) :: rest))
  /\ media_db st' !! (n + 1) = Some media
  /\ (forall id m, media_db st !! id = Some m -> media_db st' !! id = Some m)
  /\ Z.of_nat (size (media_db st')) = n + 1.
Proof.
  intros (_ & _ & _ & Hi)%reachable_invariants n st'. subst n st'.
  assert (media_db st !! (Z.of_nat (size (media_db st)) + 1) = None) as Hfresh.
  { apply eq_None_not_Some. intros Hs%Hi. lia. }
  split; [exact Hi|]. split; [done|]. split; [by eexists|].
  cbn [create_media snd media_db]. split; [apply lookup_insert_eq|]. split.
  - intros id m Hid. rewrite lookup_insert_ne; [done|]. intros <-. by rewrite Hfresh in Hid.
  - rewrite map_size_insert_None by done. lia.
Qed.

Lemma create_media_fresh_id_witness :
  media_db (create_media sample_media served).2 !! 2 = Some sample_media.
Proof.
  destruct (create_media_fresh_id sample_media served reachable_served)
    as (_ & _ & _ & H & _).
  exact H.
Defined.

(** X18. A resource just created in a reachable state is ready to use:
    [get_analytics] for the returned id answers an uncached summary with
    zero views, and [log_view] for it is never answered 404. *)
Theorem create_media_then_use (media : Media) (host : string)
    (now_limiter now : datetime) (now_get now_setex : Z) (st : state) :
  reachable st ->
  let id := Z.of_nat (size (media_db st)) + 1 in
  let st' := (create_media media st).2 in
  (get_analytics id now_get now_setex st').1
  = Return [ ("cached", PyBool false); ("total_views", PyInt 0);
             ("unique_ips", PyInt 0); ("views_per_day", PyDict []) ]
  /\ (log_view id host now_limiter now st').1 <> Raise not_found.
Proof.
  intros Hreach id st'.
  destruct (reachable_invariants st Hreach) as (_ & [Hviews Hcache] & _ & Hi).
  assert (media_db st !! id = None) as Hfresh.
  { apply eq_None_not_Some. intros Hs%Hi. subst id. lia. }
  assert (is_Some (media_db st' !! id)) as Hreg.
  { subst st'. cbn [create_media snd media_db]. fold id. rewrite lookup_insert_eq. by eexists. }
  assert (views_db st' !! id = None) as Hnoviews.
  { subst st'. cbn [create_media snd views_db]. apply eq_None_not_Some.
    intros Hs%Hviews. rewrite Hfresh in Hs. by destruct Hs. }
  assert (redis_client st' !! cache_key id = None) as Hnokey.
  { subst st'. cbn [create_media snd redis_client]. apply eq_None_not_Some.
    intros Hs. destruct (Hcache _ Hs) as (id' & Heq & Hid').
    apply cache_key_inj in Heq. subst id'. rewrite Hfresh in Hid'. by destruct Hid'. }
  split.
  - rewrite get_analytics_miss; [|done|].
    + cbn [fst]. unfold events. by rewrite Hnoviews.
    + apply missed_None. unfold Redis.get. by rewrite Hnokey.
  - rewrite log_view_unfold. case_decide; [done|].
    destruct Hreg as [m Hm]. by rewrite Hm.
Qed.

Lemma create_media_then_use_witness :
  (get_analytics 2 0 0 (create_media sample_media served).2).1
  = Return [ ("cached", PyBool false); ("total_views", PyInt 0);
             ("unique_ips", PyInt 0); ("views_per_day", PyDict []) ].
Proof.
  destruct (create_media_then_use sample_media client next_day next_day 0 0 served
              reachable_served) as [H _].
  exact H.
Defined.

(** ** Accounts *)

(** X21. [signup] answers 400 exactly when the address is taken, and it
    never changes an existing account: a second sign-up with the same
    address does not replace the stored password. *)
Theorem signup_never_overwrites (user : User) (users_db : gmap string User) :
  ((signup user users_db).1 = Raise user_already_exists
     <-> is_Some (users_db !! email user))
  /\ ((signup user users_db).1 = Return [("msg", PyStr "User created")]
     <-> users_db !! email user = None)
  /\ (forall k u, users_db !! k = Some u -> (signup user users_db).2 !! k = Some u)
  /\ (users_db !! email user = None -> (signup user users_db).2 !! email user = Some user).
Proof.
  unfold signup. destruct (users_db !! email user) as [u0|] eqn:Hu.
  - rewrite decide_True by (by eexists). cbn [fst snd].
    split; [split; [by eexists|done]|]. split; [split; done|]. split; done.
  - rewrite decide_False by (by intros [? ?]). cbn [fst snd].
    split; [split; [done|by intros [? ?]]|]. split; [done|]. split.
    + intros k u Hk. rewrite lookup_insert_ne; [done|]. intros <-. by rewrite Hu in Hk.
    + intros _. rewrite lookup_insert_eq. by destruct user.
Qed.

Section login_facts.
Variable create_access_token : list (string * pyval) -> timedelta -> string.
Variable minutes : Z.

(** X22. [login] succeeds exactly when an account is stored under the
    name and its password is the one given; an unknown name and a wrong
    password get the same 401. *)
Theorem login_outcome (username pass : string) (users_db : gmap string User) :
  ((exists resp, login create_access_token minutes username pass users_db = Return resp)
     <-> exists user, users_db !! username = Some user /\ password user = pass)
  /\ (forall e, login create_access_token minutes username pass users_db = Raise e ->
        e = invalid_credentials).
Proof.
  unfold login. destruct (users_db !! username) as [user|].
  - destruct (decide (password user <> pass)) as [Hne|Heq].
    + split; [|by intros e [= <-]]. split; [by intros [? ?]|].
      intros (u & [= <-] & Hp). done.
    + apply dec_stable in Heq. split; [|done]. split; [|by eexists].
      intros _. by exists user.
  - split; [|by intros e [= <-]]. split; [by intros [? ?]|by intros (? & ? & _)].
Qed.

(** X23. After a [signup] that returned, [login] with the address and
    password signed up with succeeds, and with any other password it is
    answered 401. *)
Theorem signup_then_login (user : User) (pass : string) (users_db : gmap string User)
    (resp : list (string * pyval)) :
  (signup user users_db).1 = Return resp ->
  let db := (signup user users_db).2 in
  login create_access_token minutes (email user) (password user) db
  = Return [ ("access_token",
              PyStr (create_access_token [("sub", PyStr (email user))]
                       (new_timedelta 0 (minutes * 60) 0)));
             ("token_type", PyStr "bearer") ]
  /\ (pass <> password user ->
      login create_access_token minutes (email user) pass db = Raise invalid_credentials).
Proof.
  unfold signup. case_decide as Hex; [done|]. intros _. cbn [snd].
  unfold login. rewrite lookup_insert_eq. cbn [password email].
  split.
  - by rewrite decide_False by (by intros ?).
  - intros Hne. by rewrite decide_True by (by intros ?).
Qed.

Lemma signup_keyed_by_email (user : User) (users_db : gmap string User) :
  keyed_by_email users_db -> keyed_by_email (signup user users_db).2.
Proof.
  intros Hdb. unfold signup. case_decide; [done|]. cbn [snd].
  intros k u [[<- <-]|[_ Hk]]%lookup_insert_Some; [done|by apply Hdb].
Qed.

Lemma signups_keyed_by_email (users : list User) (users_db : gmap string User) :
  keyed_by_email users_db -> keyed_by_email (signups users users_db).
Proof.
  revert users_db. induction users as [|u users IH]; intros db Hdb; [done|].
  cbn [signups fold_left]. apply IH. by apply signup_keyed_by_email.
Qed.

(** X24. Accounts created by [signup] are stored under their own address,
    so after any sequence of sign-ups the token a successful [login]
    returns is issued for the name that logged in. *)
Theorem login_token_subject (users : list User) (username pass : string)
    (resp : list (string * pyval)) :
  login create_access_token minutes username pass (signups users ∅) = Return resp ->
  resp = [ ("access_token",
            PyStr (create_access_token [("sub", PyStr username)]
                     (new_timedelta 0 (minutes * 60) 0)));
           ("token_type", PyStr "bearer") ].
Proof.
  assert (keyed_by_email (signups users ∅)) as Hkeyed.
  { apply signups_keyed_by_email. intros k u Hk. by rewrite lookup_empty in Hk. }
  unfold login.
  destruct (signups users ∅ !! username) as [user|] eqn:Hu; [|done].
  case_decide; [done|]. intros [= <-]. by rewrite (Hkeyed _ _ Hu).
Qed.

End login_facts.

Lemma signup_then_login_witness :
  login subject_token 30 "alice@example.org" "correct horse" (signup alice ∅).2
  = Return [("access_token", PyStr "alice@example.org"); ("token_type", PyStr "bearer")].
Proof.
  assert ((signup alice ∅).1 = Return [("msg", PyStr "User created")]) as H
    by (by vm_compute).
  destruct (signup_then_login subject_token 30 alice "guess" ∅ _ H) as [Hok _].
  exact Hok.
Defined.

Lemma login_token_subject_witness :
  exists resp, login subject_token 30 "alice@example.org" "correct horse" (signups [alice] ∅)
               = Return resp
    /\ Dict.get "access_token" resp = Some (PyStr "alice@example.org").
Proof.
  eexists. split; [by vm_compute|].
  assert (login subject_token 30 "alice@example.org" "correct horse" (signups [alice] ∅)
          = Return [("access_token", PyStr "alice@example.org"); ("token_type", PyStr "bearer")])
    as H by (by vm_compute).
  by rewrite (login_token_subject subject_token 30 [alice] _ _ _ H).
Defined.

(** ** Cache keys and cache texts *)

(** X19. The text stored in the cache determines the summary: two logs
    whose analytics print to the same text have the same analytics dict. *)
Theorem cache_text_determines_summary (views views' : list view) :
  str (PyDict (analytics views)) = str (PyDict (analytics views')) ->
  analytics views = analytics views'.
Proof.
  intros Heq. apply (f_equal eval) in Heq.
  rewrite !eval_str_analytics in Heq. congruence.
Qed.

Lemma cache_text_determines_summary_witness :
  analytics sample_views
  = analytics [ {| ip := "1.2.3.4"; time := at_time 2026 11 2 8 0 0 |};
                {| ip := "5.6.7.8"; time := at_time 2026 11 3 9 30 0 |};
                {| ip := "1.2.3.4"; time := at_time 2026 11 3 21 15 0 |} ].
Proof.
  apply cache_text_determines_summary. by vm_compute.
Defined.

(** X20. Every resource has a cache key of its own: the analytics keys
    of two different ids are different texts. *)
Theorem cache_keys_distinct (id id' : Z) :
  id <> id' -> cache_key id <> cache_key id'.
Proof. intros Hne Heq. by apply cache_key_inj in Heq. Qed.

Lemma cache_keys_distinct_witness : cache_key 1 <> cache_key 11.
Proof.
  assert (1 <> 11) as Hne by lia.
  exact (cache_keys_distinct 1 11 Hne).
Defined.
